(** * The External backend of wavesurfer.js (src/external-backend.js)

    A shallow embedding of the playback clock of the External backend and
    the properties of its transport operations.

    Numbers.  A JavaScript number is modelled as an exact rational
    ([Qc], canonical fractions, so that equal numbers are equal terms)
    extended with [NaN], [+Infinity] and [-Infinity].  Rounding and the
    sign of zero are not modelled: every zero is [+0].

    Events.  The backend inherits [fireEvent] from util.Observer.  The
    model records every fired event in a log and runs the two handlers that
    [createTimer] registers ('play' and 'pause'); calls of
    [requestAnimationFrame] are counted.  The model is that of a backend on
    which [init()] has run once; [destroy()], which detaches the handlers,
    is left out. *)

From Stdlib Require Import QArith Qcanon List Bool Lia.
Import ListNotations.

(** ** The fragment of JavaScript the backend uses *)

Module JS.

Local Open Scope Qc_scope.

Inductive num : Type :=
| NaN
| PInf
| NInf
| Fin (q : Qc).

(** A value that a field or an argument of the backend can hold: the
    backend stores numbers, [null] and whatever the caller passed, which may
    be [undefined] for an omitted argument. *)
Inductive value : Type :=
| VUndefined
| VNull
| VNum (n : num).

Definition Qc_is_zero (q : Qc) : bool :=
  match q ?= 0 with Eq => true | _ => false end.

Definition Qc_leb (x y : Qc) : bool :=
  match x ?= y with Gt => false | _ => true end.

(** The infinity (or NaN) whose sign is that of a comparison with zero. *)
Definition signed_inf (c : comparison) : num :=
  match c with Gt => PInf | Lt => NInf | Eq => NaN end.

Definition num_opp (a : num) : num :=
  match a with
  | NaN => NaN
  | PInf => NInf
  | NInf => PInf
  | Fin x => Fin (- x)
  end.

Definition num_add (a b : num) : num :=
  match a, b with
  | NaN, _ | _, NaN => NaN
  | PInf, NInf | NInf, PInf => NaN
  | PInf, _ | _, PInf => PInf
  | NInf, _ | _, NInf => NInf
  | Fin x, Fin y => Fin (x + y)
  end.

Definition num_sub (a b : num) : num := num_add a (num_opp b).

Definition num_mul (a b : num) : num :=
  match a, b with
  | NaN, _ | _, NaN => NaN
  | Fin x, Fin y => Fin (x * y)
  | PInf, PInf | NInf, NInf => PInf
  | PInf, NInf | NInf, PInf => NInf
  | PInf, Fin y | Fin y, PInf => signed_inf (y ?= 0)
  | NInf, Fin y | Fin y, NInf => signed_inf (0 ?= y)
  end.

Definition num_div (a b : num) : num :=
  match a, b with
  | NaN, _ | _, NaN => NaN
  | PInf, PInf | PInf, NInf | NInf, PInf | NInf, NInf => NaN
  | PInf, Fin y => match y ?= 0 with Lt => NInf | _ => PInf end
  | NInf, Fin y => match y ?= 0 with Lt => PInf | _ => NInf end
  | Fin _, PInf | Fin _, NInf => Fin 0
  | Fin x, Fin y => if Qc_is_zero y then signed_inf (x ?= 0) else Fin (x / y)
  end.

(** [a >= b] on numbers: false as soon as one side is NaN. *)
Definition num_ge (a b : num) : bool :=
  match a, b with
  | NaN, _ | _, NaN => false
  | PInf, _ => true
  | _, NInf => true
  | NInf, _ => false
  | Fin _, PInf => false
  | Fin x, Fin y => Qc_leb y x
  end.

(** ToNumber on the values at hand. *)
Definition to_number (v : value) : num :=
  match v with
  | VUndefined => NaN
  | VNull => Fin 0
  | VNum n => n
  end.

(** ToBoolean: [undefined], [null], [0] and [NaN] are falsy. *)
Definition truthy (v : value) : bool :=
  match v with
  | VUndefined | VNull => false
  | VNum NaN => false
  | VNum (Fin q) => negb (Qc_is_zero q)
  | VNum _ => true
  end.

(** [v == null] *)
Definition is_nullish (v : value) : bool :=
  match v with
  | VUndefined | VNull => true
  | VNum _ => false
  end.

(** The operators [+ - * / >= ||] on values that are not strings. *)
Definition js_add (a b : value) : value :=
  VNum (num_add (to_number a) (to_number b)).
Definition js_sub (a b : value) : value :=
  VNum (num_sub (to_number a) (to_number b)).
Definition js_mul (a b : value) : value :=
  VNum (num_mul (to_number a) (to_number b)).
Definition js_div (a b : value) : value :=
  VNum (num_div (to_number a) (to_number b)).
Definition js_ge (a b : value) : bool := num_ge (to_number a) (to_number b).
Definition js_or (a b : value) : value := if truthy a then a else b.

(** Number literals. *)
Definition lit (q : Q) : value := VNum (Fin (Q2Qc q)).

(** Decidable equality of values, by comparison of the fractions. *)
Definition num_eqb (a b : num) : bool :=
  match a, b with
  | NaN, NaN | PInf, PInf | NInf, NInf => true
  | Fin x, Fin y => Qeq_bool x y
  | _, _ => false
  end.

Definition value_eqb (a b : value) : bool :=
  match a, b with
  | VUndefined, VUndefined | VNull, VNull => true
  | VNum x, VNum y => num_eqb x y
  | _, _ => false
  end.

End JS.

Import JS.

(** ** The backend *)

Inductive playState : Type := PLAYING | PAUSED | FINISHED.

Definition playState_eqb (a b : playState) : bool :=
  match a, b with
  | PLAYING, PLAYING | PAUSED, PAUSED | FINISHED, FINISHED => true
  | _, _ => false
  end.

Inductive event : Type :=
| Play
| Pause
| Audioprocess (time : value)
| Finish.

(** The fields of the class, followed by the two things the backend does
    to its surroundings: the events it fired (oldest first) and the number
    of animation frames it requested. *)
Record External : Type := mkExternal {
  peaks : option (list num);
  playbackRate : value;
  volume : value;
  scheduledPause : value;
  clockTime : value;
  startPosition : value;
  lastPlay : value;
  explicitDuration : value;
  state : option playState;
  events : list event;
  frames : nat
}.

(** The object the constructor builds. *)
Definition constructor : External :=
  {| peaks := None;
     playbackRate := lit 1;
     volume := lit 1;
     scheduledPause := VNull;
     clockTime := VNull;
     startPosition := VNull;
     lastPlay := VNull;
     explicitDuration := VNull;
     state := None;
     events := [];
     frames := 0 |}.

(** Assignments to one field, [this.field = v]. *)

Definition set_peaks (this : External) (v : option (list num)) : External :=
  match this with
  | mkExternal pk rate vol sched clock pos anchor dur st evs reqs =>
      mkExternal v rate vol sched clock pos anchor dur st evs reqs
  end.

Definition set_playbackRate (this : External) (v : value) : External :=
  match this with
  | mkExternal pk rate vol sched clock pos anchor dur st evs reqs =>
      mkExternal pk v vol sched clock pos anchor dur st evs reqs
  end.

Definition set_volume (this : External) (v : value) : External :=
  match this with
  | mkExternal pk rate vol sched clock pos anchor dur st evs reqs =>
      mkExternal pk rate v sched clock pos anchor dur st evs reqs
  end.

Definition set_scheduledPause (this : External) (v : value) : External :=
  match this with
  | mkExternal pk rate vol sched clock pos anchor dur st evs reqs =>
      mkExternal pk rate vol v clock pos anchor dur st evs reqs
  end.

Definition set_clockTime (this : External) (v : value) : External :=
  match this with
  | mkExternal pk rate vol sched clock pos anchor dur st evs reqs =>
      mkExternal pk rate vol sched v pos anchor dur st evs reqs
  end.

Definition set_startPosition (this : External) (v : value) : External :=
  match this with
  | mkExternal pk rate vol sched clock pos anchor dur st evs reqs =>
      mkExternal pk rate vol sched clock v anchor dur st evs reqs
  end.

Definition set_lastPlay (this : External) (v : value) : External :=
  match this with
  | mkExternal pk rate vol sched clock pos anchor dur st evs reqs =>
      mkExternal pk rate vol sched clock pos v dur st evs reqs
  end.

Definition set_explicitDuration (this : External) (v : value) : External :=
  match this with
  | mkExternal pk rate vol sched clock pos anchor dur st evs reqs =>
      mkExternal pk rate vol sched clock pos anchor v st evs reqs
  end.

Definition set_state (this : External) (v : option playState) : External :=
  match this with
  | mkExternal pk rate vol sched clock pos anchor dur st evs reqs =>
      mkExternal pk rate vol sched clock pos anchor dur v evs reqs
  end.

(** Modelled from the spec: [fireEvent] of util.Observer, which is not
    among the sources; the Event Sink delivers synchronously and in call
    order.  [emit] is the delivery to the subscribers outside the backend;
    the handlers that [createTimer] registers are run by [fireEvent_pause]
    and [fireEvent_play] below. *)
Definition emit (this : External) (e : event) : External :=
  match this with
  | mkExternal pk rate vol sched clock pos anchor dur st evs reqs =>
      mkExternal pk rate vol sched clock pos anchor dur st (evs ++ [e]) reqs
  end.

(** Modelled from the spec: the Clock Source ([requestAnimationFrame] of
    the browser); one call asks for one later call of the tick handler. *)
Definition requestAnimationFrame (this : External) : External :=
  match this with
  | mkExternal pk rate vol sched clock pos anchor dur st evs reqs =>
      mkExternal pk rate vol sched clock pos anchor dur st evs (S reqs)
  end.

(** [this.state === st] *)
Definition state_is (this : External) (st : playState) : bool :=
  match state this with
  | Some st' => playState_eqb st' st
  | None => false
  end.

Definition isPaused (this : External) : bool :=
  negb (state_is this PLAYING).

Definition getDuration (this : External) : value :=
  explicitDuration this.

Definition getPlayedTime (this : External) : value :=
  js_mul (js_sub (clockTime this) (lastPlay this)) (playbackRate this).

(** The [switch] has no default: with [state] still [null] the function
    runs off its end and returns [undefined]. *)
Definition getCurrentTime (this : External) : value :=
  match state this with
  | Some PLAYING => js_add (startPosition this) (getPlayedTime this)
  | Some PAUSED => startPosition this
  | Some FINISHED => getDuration this
  | None => VUndefined
  end.

Definition getPlayedPercents (this : External) : value :=
  if state_is this FINISHED then lit 1
  else js_or (js_div (getCurrentTime this) (getDuration this)) (lit 0).

Definition setState (st : playState) (this : External) : External :=
  if negb (state_is this st) then
    let this := set_state this (Some st) in
    match st with
    | FINISHED => emit this Finish
    | _ => this
    end
  else this.

Definition getPlaybackRate (this : External) : value := playbackRate this.

(** [fireEvent('pause')]: the subscribers, then the handler of
    [createTimer], which fires one more 'audioprocess'. *)
Definition fireEvent_pause (this : External) : External :=
  let this := emit this Pause in
  emit this (Audioprocess (getCurrentTime this)).

Definition pause (this : External) : External :=
  let this := set_scheduledPause this VNull in
  let this :=
    set_startPosition this (js_add (startPosition this) (getPlayedTime this)) in
  let this := setState PAUSED this in
  fireEvent_pause this.

(** The first block of the closure [onAudioProcess]: a tick that carries a
    time stamp is stored in seconds, and anchors [lastPlay] when that is
    unset. *)
Definition stamp (time : value) (this : External) : External :=
  if negb (is_nullish time) then
    let this := set_clockTime this (js_div time (lit 1000)) in
    if is_nullish (lastPlay this) then set_lastPlay this (clockTime this)
    else this
  else this.

Definition onAudioProcess (time : value) (this : External) : External :=
  let this := stamp time this in
  if js_ge (getCurrentTime this) (getDuration this) then
    let this := pause this in
    setState FINISHED this
  else if truthy (scheduledPause this)
          && js_ge (getCurrentTime this) (scheduledPause this) then
    pause this
  else if state_is this PLAYING then
    let this := emit this (Audioprocess (getCurrentTime this)) in
    requestAnimationFrame this
  else this.

(** [fireEvent('play')]: the subscribers, then [onAudioProcess], called
    without a time stamp. *)
Definition fireEvent_play (this : External) : External :=
  let this := emit this Play in
  onAudioProcess VUndefined this.

Definition seekTo (start : value) (this : External) : External :=
  let start :=
    if is_nullish start then
      let start := getCurrentTime this in
      if js_ge start (getDuration this) then lit 0 else start
    else start in
  let this := set_startPosition this start in
  if state_is this FINISHED then setState PAUSED this else this.

Definition play (start end_ : value) (this : External) : External :=
  let this := seekTo start this in
  let this := set_scheduledPause this end_ in
  let this := setState PLAYING this in
  let this := set_lastPlay this VNull in
  let this := set_clockTime this VNull in
  fireEvent_play this.

Definition setPlaybackRate (v : value) (this : External) : External :=
  let v := js_or v (lit 1) in
  if isPaused this then set_playbackRate this v
  else
    let this := pause this in
    let this := set_playbackRate this v in
    play VUndefined VUndefined this.

Definition setPeaks (p : option (list num)) (duration : value)
    (this : External) : External :=
  let this := set_explicitDuration this duration in
  set_peaks this p.

Definition load (p : option (list num)) (duration : value)
    (this : External) : External :=
  let this := set_startPosition this (lit 0) in
  let this := setPeaks p duration this in
  let this := set_scheduledPause this VNull in
  setState PAUSED this.

(** [init]: the rate of the parameters; [createTimer] registers the two
    handlers that [fireEvent_play] and [fireEvent_pause] run. *)
Definition init (audioRate : value) (this : External) : External :=
  setPlaybackRate audioRate this.

Definition getPeaks (this : External) : list num :=
  match peaks this with
  | Some p => p
  | None => []
  end.

Definition getVolume (this : External) : value := volume this.

Definition setVolume (v : value) (this : External) : External :=
  set_volume this v.

(** ** Sessions: sequences of calls *)

(** What the host and the Clock Source can do to the backend.  [Ctick] is
    one delivered animation frame, that is a call of [onAudioProcess]. *)
Inductive call : Type :=
| Cload (p : option (list num)) (duration : value)
| CsetPeaks (p : option (list num)) (duration : value)
| Cplay (start end_ : value)
| Cpause
| CseekTo (start : value)
| CsetPlaybackRate (v : value)
| CsetVolume (v : value)
| Ctick (time : value).

Definition step (c : call) (this : External) : External :=
  match c with
  | Cload p d => load p d this
  | CsetPeaks p d => setPeaks p d this
  | Cplay start end_ => play start end_ this
  | Cpause => pause this
  | CseekTo start => seekTo start this
  | CsetPlaybackRate v => setPlaybackRate v this
  | CsetVolume v => setVolume v this
  | Ctick time => onAudioProcess time this
  end.

Fixpoint run (cs : list call) (this : External) : External :=
  match cs with
  | [] => this
  | c :: cs' => run cs' (step c this)
  end.

(** The number of 'finish' events in a log. *)
Fixpoint count_finish (l : list event) : nat :=
  match l with
  | [] => 0
  | Finish :: l' => S (count_finish l')
  | _ :: l' => count_finish l'
  end.

(** *** The segments of a playing session

    What the backend counts.  [play()] and every [setPlaybackRate] on a
    playing backend unset the anchors, and the next tick anchors anew: a
    session falls into segments, one per rate, and a segment is counted
    from its first tick to its last one.  The time between the last tick
    of a segment and the first tick of the next is in no segment. *)

Section Segments.

Local Open Scope Qc_scope.

(** Calls of a playing session: ticks with a time stamp in milliseconds and
    changes of rate to a number. *)
Definition clock_call (c : call) : Prop :=
  match c with
  | Ctick (VNum (Fin _)) => True
  | CsetPlaybackRate (VNum (Fin _)) => True
  | _ => False
  end.

(** The rate in force after [setPlaybackRate(r)]: a zero rate is replaced
    by 1. *)
Definition effective_rate (r : Qc) : Qc := if Qc_is_zero r then 1 else r.

(** [segments ticks rate cs]: the segments of the session [cs] as the
    backend anchors them, when the segment in progress has seen [ticks] so
    far and runs at [rate]. *)
Fixpoint segments (ticks : list Qc) (rate : Qc) (cs : list call)
  : list (list Qc * Qc) :=
  match cs with
  | [] => [(ticks, rate)]
  | Ctick (VNum (Fin ms)) :: cs' => segments (ticks ++ [ms]) rate cs'
  | CsetPlaybackRate (VNum (Fin r)) :: cs' =>
      (ticks, rate) :: segments [] (effective_rate r) cs'
  | _ :: cs' => segments ticks rate cs'
  end.

(** Seconds between the first and the last of a list of time stamps: of
    the ticks of one segment, or of all the ticks of a session. *)
Definition wall_clock (ticks : list Qc) : Qc :=
  match ticks with
  | [] => 0
  | t0 :: _ => (last ticks t0 - t0) / Q2Qc 1000
  end.

Fixpoint total_advance (segs : list (list Qc * Qc)) : Qc :=
  match segs with
  | [] => 0
  | (ticks, rate) :: segs' => wall_clock ticks * rate + total_advance segs'
  end.

(** The time stamps of the ticks of a session, changes of rate left
    out. *)
Fixpoint ticks_of (cs : list call) : list Qc :=
  match cs with
  | [] => []
  | Ctick (VNum (Fin ms)) :: cs' => ms :: ticks_of cs'
  | _ :: cs' => ticks_of cs'
  end.

(** [time / 1000], as the tick handler stores a time stamp. *)
Definition seconds (ms : Qc) : value := js_div (VNum (Fin ms)) (lit 1000).

(** [(clockTime - lastPlay) * playbackRate] for a segment with these ticks:
    the anchors are [null] when it has none, else its first and its last
    tick in seconds. *)
Definition played (ticks : list Qc) (rate : Qc) : value :=
  match ticks with
  | [] => js_mul (js_sub VNull VNull) (VNum (Fin rate))
  | t0 :: _ =>
      js_mul (js_sub (seconds (last ticks t0)) (seconds t0)) (VNum (Fin rate))
  end.

(** The segments added to a position one after the other, in the order in
    which [pause()] and [getCurrentTime()] add them. *)
Definition position_after (p : value) (segs : list (list Qc * Qc)) : value :=
  fold_left (fun acc seg => js_add acc (played (fst seg) (snd seg))) segs p.

(** The anchors of the backend agree with the ticks of the segment in
    progress. *)
Definition anchored (this : External) (ticks : list Qc) : Prop :=
  match ticks with
  | [] => lastPlay this = VNull /\ clockTime this = VNull
  | t0 :: _ =>
      lastPlay this = VNum (Fin (t0 / Q2Qc 1000)) /\
      clockTime this = VNum (Fin (last ticks t0 / Q2Qc 1000))
  end.

End Segments.

(** *** Well-behaved hosts *)

Section Hosts.

Local Open Scope Qc_scope.

(** A rate the host may set: a number that is not negative, or something
    falsy; [setPlaybackRate] replaces what is falsy, 0 included, by 1. *)
Definition rate_ok (v : value) : Prop :=
  match v with
  | VNum (Fin r) => 0 <= r
  | VNum NaN | VUndefined | VNull => True
  | VNum _ => False
  end.

(** A start position the host may ask for: none, or a number that is not
    negative. *)
Definition start_ok (v : value) : Prop :=
  match v with
  | VNum (Fin q) => 0 <= q
  | VUndefined | VNull => True
  | VNum _ => False
  end.

Definition duration_ok (v : value) : Prop :=
  match v with
  | VNum (Fin d) => 0 <= d
  | _ => False
  end.

(** [admissible c this]: the host respects the contract when it makes the
    call [c] in the state [this]; a tick is not older than the last tick the
    backend saw. *)
Definition admissible (c : call) (this : External) : Prop :=
  match c with
  | Cload _ d | CsetPeaks _ d => duration_ok d
  | Cplay start _ => start_ok start
  | CseekTo start => start_ok start
  | CsetPlaybackRate v => rate_ok v
  | Ctick (VNum (Fin ms)) =>
      match clockTime this with
      | VNum (Fin c) => c <= ms / Q2Qc 1000
      | _ => True
      end
  | Ctick _ => False
  | Cpause | CsetVolume _ => True
  end.

Fixpoint admissible_run (cs : list call) (this : External) : Prop :=
  match cs with
  | [] => True
  | c :: cs' => admissible c this /\ admissible_run cs' (step c this)
  end.

(** [startPosition] is a number of [[0, explicitDuration]]. *)
Definition within_clip (this : External) : Prop :=
  exists p d,
    startPosition this = VNum (Fin p) /\
    explicitDuration this = VNum (Fin d) /\
    0 <= p /\ p <= d.

(** What a well-behaved host maintains. *)
Record sound (this : External) : Prop := {
  position_ok : exists p, startPosition this = VNum (Fin p) /\ 0 <= p;
  rate_positive : exists r, playbackRate this = VNum (Fin r) /\ 0 < r;
  duration_known : exists d, explicitDuration this = VNum (Fin d) /\ 0 <= d;
  anchors_ordered :
    (lastPlay this = VNull /\ clockTime this = VNull) \/
    (exists l c, lastPlay this = VNum (Fin l) /\
                 clockTime this = VNum (Fin c) /\ l <= c);
  loaded : state this <> None
}.

End Hosts.

(** Calls that neither start playback nor deliver a tick. *)
Definition quiet (c : call) : Prop :=
  match c with
  | Cplay _ _ | Ctick _ => False
  | _ => True
  end.

(** *** Scenarios *)

(** A backend after [init()] and [load(peaks, 10)]. *)
Definition ten_seconds : External :=
  load None (lit 10) (init VUndefined constructor).

(** [play()], a first tick at 0 ms and a second one at 2000 ms. *)
Definition two_seconds_in : External :=
  run [Cplay VUndefined VUndefined; Ctick (lit 0); Ctick (lit 2000)]
    ten_seconds.

(** [play()] and no tick yet. *)
Definition just_started : External :=
  play VUndefined VUndefined ten_seconds.

(** [play(0, 0)] and a first tick. *)
Definition pause_at_zero : External :=
  run [Cplay (lit 0) (lit 0); Ctick (lit 0)] ten_seconds.

(** [play(9.5)] with ticks at 0 ms and 1000 ms: the second tick computes
    10.5 and finishes the clip. *)
Definition overshoot : External :=
  run [Cplay (lit 9.5) VUndefined; Ctick (lit 0); Ctick (lit 1000)]
    ten_seconds.

(** A clip of duration 0 on which the host seeks to 5. *)
Definition empty_clip_at_five : External :=
  seekTo (lit 5) (load None (lit 0) (init VUndefined constructor)).

(** [play(9.5)] and a first tick, at 0 ms. *)
Definition nearly_done : External :=
  run [Cplay (lit 9.5) VUndefined; Ctick (lit 0)] ten_seconds.

(** [play(0, 5)] and a first tick, at 0 ms. *)
Definition pause_at_five : External :=
  run [Cplay (lit 0) (lit 5); Ctick (lit 0)] ten_seconds.

Definition is_pause (e : event) : bool :=
  match e with
  | Pause => true
  | _ => false
  end.

(** A session on [just_started]: ticks at 0 ms and 1000 ms at rate 1, then
    [setPlaybackRate(2)] and ticks at 1016 ms and 3016 ms. *)
Definition two_rates : list call :=
  [Ctick (lit 0); Ctick (lit 1000); CsetPlaybackRate (lit 2);
   Ctick (lit 1016); Ctick (lit 3016)].

(** The ticks of a session without change of rate. *)
Definition ticks_only (ticks : list Qc) : list call :=
  map (fun ms => Ctick (VNum (Fin ms))) ticks.

(** A session of a well-behaved host on [ten_seconds]: play from 9.5 to
    the end (the tick at 1000 ms computes 10.5), pause once more, then seek
    beyond the end. *)
Definition past_the_end : list call :=
  [Cplay (lit 9.5) VUndefined; Ctick (lit 0); Ctick (lit 1000); Cpause;
   CseekTo (lit 100)].

(** A session on [just_started] at rate 1 throughout: ticks at 0 ms and
    1000 ms, [setPlaybackRate(1)], ticks at 2000 ms and 3000 ms. *)
Definition same_rate_again : list call :=
  [Ctick (lit 0); Ctick (lit 1000); CsetPlaybackRate (lit 1);
   Ctick (lit 2000); Ctick (lit 3000)].

(** [due delivered cs this]: every tick of [cs] is the callback of a frame
    that the backend has requested and that has not been delivered yet,
    when [delivered] callbacks have run so far. *)
Fixpoint due (delivered : nat) (cs : list call) (this : External) : bool :=
  match cs with
  | [] => true
  | Ctick time :: cs' =>
      Nat.ltb delivered (frames this)
      && due (S delivered) cs' (step (Ctick time) this)
  | c :: cs' => due delivered cs' (step c this)
  end.

(** [play(9.5)] on [ten_seconds] and a first frame at 0 ms;
    [setPlaybackRate(2)], whose [play()] requests a frame while the one
    requested by the first tick is still pending; then the frames at 16 ms
    and at 516 ms, each delivered to both pending callbacks. *)
Definition double_armed : list call :=
  [Cplay (lit 9.5) VUndefined; Ctick (lit 0); CsetPlaybackRate (lit 2);
   Ctick (lit 16); Ctick (lit 16); Ctick (lit 516); Ctick (lit 516)].

(** *** Further notions *)

(** Two backends with the same loaded clip and the same settings. *)
Definition same_settings (a b : External) : Prop :=
  playbackRate a = playbackRate b /\
  peaks a = peaks b /\
  volume a = volume b /\
  explicitDuration a = explicitDuration b.

(** Calls of the transport: anything but loading a clip or setting the
    volume. *)
Definition transport (c : call) : Prop :=
  match c with
  | Cload _ _ | CsetPeaks _ _ | CsetVolume _ => False
  | _ => True
  end.

(** A log in which every 'pause' is followed at once by the 'audioprocess'
    of the pause handler. *)
Inductive reported : list event -> Prop :=
| reported_nil : reported []
| reported_pause (t : value) (l : list event) :
    reported l -> reported (Pause :: Audioprocess t :: l)
| reported_play (l : list event) : reported l -> reported (Play :: l)
| reported_audioprocess (t : value) (l : list event) :
    reported l -> reported (Audioprocess t :: l)
| reported_finish (l : list event) : reported l -> reported (Finish :: l).

(** A backend that is not playing has no pause scheduled. *)
Definition unscheduled_when_idle (this : External) : Prop :=
  state this = Some PLAYING \/ scheduledPause this = VNull.

(** [play(0, 5)], a first tick, then [setPlaybackRate(2)]. *)
Definition rate_change_at_five : External :=
  setPlaybackRate (lit 2) pause_at_five.

(** What one call adds to the log: a reported stretch with at most one
    'finish', and when it has one the backend is Finished at the end. *)
Definition adds (before after : External) (d : list event) : Prop :=
  events after = events before ++ d /\
  reported d /\
  (count_finish d = 0%nat \/
   count_finish d = 1%nat /\ state after = Some FINISHED).

(** ** Proof steps *)

(** Names the fields of a backend, so that assignments and field accesses
    compute. *)
Ltac expose this :=
  destruct this as [this_peaks this_rate this_volume this_sched this_clock
                      this_pos this_anchor this_dur this_state this_events
                      this_frames];
  cbn [peaks playbackRate volume scheduledPause clockTime startPosition
       lastPlay explicitDuration state events frames] in *.

(** Splits on every test the goal is stuck on. *)
Ltac branches :=
  repeat match goal with
         | |- context [if ?b then _ else _] => destruct b eqn:?
         end.

(** Reduces the assignments, the field accesses and the tests on constants;
    arithmetic is left alone. *)
Ltac assign :=
  cbn [emit requestAnimationFrame set_peaks set_playbackRate set_volume
       set_scheduledPause set_clockTime set_startPosition set_lastPlay
       set_explicitDuration set_state
       peaks playbackRate volume scheduledPause clockTime startPosition
       lastPlay explicitDuration state events frames
       negb andb playState_eqb is_nullish].

(** ** Arithmetic of the model *)

Section Arithmetic.

Local Open Scope Qc_scope.

Lemma Qc_is_zero_true (q : Qc) : Qc_is_zero q = true <-> q = 0.
Proof.
  unfold Qc_is_zero. rewrite Qceq_alt.
  destruct (q ?= 0); split; congruence.
Qed.

Lemma Qc_is_zero_false (q : Qc) : Qc_is_zero q = false <-> q <> 0.
Proof.
  rewrite <- Qc_is_zero_true. destruct (Qc_is_zero q); split; congruence.
Qed.

Lemma Qc_leb_le (x y : Qc) : Qc_leb x y = true <-> x <= y.
Proof.
  unfold Qc_leb. rewrite Qcle_alt.
  destruct (x ?= y); split; congruence.
Qed.

Lemma Qc_leb_gt (x y : Qc) : Qc_leb x y = false <-> y < x.
Proof.
  unfold Qc_leb, Qclt, Qccompare. rewrite Qgt_alt.
  destruct (x ?= y)%Q; split; congruence.
Qed.

Lemma num_eqb_eq (a b : num) : num_eqb a b = true -> a = b.
Proof.
  destruct a, b; simpl; try congruence.
  intros H. apply Qeq_bool_iff in H. f_equal. now apply Qc_is_canon.
Qed.

Lemma value_eqb_eq (a b : value) : value_eqb a b = true -> a = b.
Proof.
  destruct a, b; simpl; try congruence.
  intros H. f_equal. now apply num_eqb_eq.
Qed.

Lemma num_eqb_refl (a : num) : num_eqb a a = true.
Proof. destruct a; simpl; trivial. apply Qeq_bool_iff. reflexivity. Qed.

Lemma value_eqb_neq (a b : value) : value_eqb a b = false -> a <> b.
Proof.
  intros H E. subst b. destruct a; simpl in H; try discriminate.
  now rewrite num_eqb_refl in H.
Qed.

(** Adding the number zero changes no number, NaN and the infinities
    included. *)
Lemma num_add_0_r (n : num) : num_add n (Fin 0) = n.
Proof. destruct n; simpl; trivial. f_equal. ring. Qed.

Lemma Q2Qc_1000_neq_0 : Q2Qc 1000 <> 0.
Proof. intros H. apply Q2Qc_eq_iff in H. discriminate H. Qed.

Lemma js_div_1000 (ms : Qc) :
  js_div (VNum (Fin ms)) (lit 1000) = VNum (Fin (ms / Q2Qc 1000)).
Proof.
  unfold js_div, lit, to_number, num_div.
  destruct (Qc_is_zero (Q2Qc 1000)) eqn:E; trivial.
  apply Qc_is_zero_true in E. now destruct Q2Qc_1000_neq_0.
Qed.

End Arithmetic.

(** Settles a closed equation by running the model; numbers are compared
    as fractions. *)
Ltac run_model :=
  first
    [ apply value_eqb_eq; vm_compute; reflexivity
    | apply value_eqb_neq; vm_compute; reflexivity
    | vm_compute; reflexivity ].

(** ** What the operations change *)

Lemma setState_frame (st : playState) (this : External) :
  startPosition (setState st this) = startPosition this /\
  playbackRate (setState st this) = playbackRate this /\
  explicitDuration (setState st this) = explicitDuration this /\
  lastPlay (setState st this) = lastPlay this /\
  clockTime (setState st this) = clockTime this /\
  scheduledPause (setState st this) = scheduledPause this /\
  frames (setState st this) = frames this.
Proof.
  expose this. unfold setState, state_is. assign.
  branches; [ destruct st | ]; assign; tauto.
Qed.

Lemma state_setState (st : playState) (this : External) :
  state (setState st this) = Some st.
Proof.
  expose this. unfold setState, state_is. assign.
  destruct this_state as [[ | | ]| ], st; reflexivity.
Qed.

(** [pause()] in any state: the played time is added to [startPosition],
    the scheduled pause is dropped, 'pause' is fired and its handler
    reports the new position. *)
Lemma pause_frame (this : External) :
  startPosition (pause this) =
    js_add (startPosition this) (getPlayedTime this) /\
  state (pause this) = Some PAUSED /\
  scheduledPause (pause this) = VNull /\
  events (pause this) =
    events this
      ++ [Pause;
          Audioprocess (js_add (startPosition this) (getPlayedTime this))] /\
  playbackRate (pause this) = playbackRate this /\
  explicitDuration (pause this) = explicitDuration this /\
  lastPlay (pause this) = lastPlay this /\
  clockTime (pause this) = clockTime this /\
  frames (pause this) = frames this.
Proof.
  expose this.
  unfold pause, fireEvent_pause, setState, state_is, getCurrentTime,
    getPlayedTime.
  destruct this_state as [[ | | ]| ]; assign; rewrite <- app_assoc; tauto.
Qed.

(** What [pause()] does to a playing backend: the current time is frozen
    into [startPosition], the scheduled pause is dropped, 'pause' is fired
    and its handler reports the frozen time. *)
Lemma pause_playing (this : External) :
  state this = Some PLAYING ->
  pause this =
    {| peaks := peaks this;
       playbackRate := playbackRate this;
       volume := volume this;
       scheduledPause := VNull;
       clockTime := clockTime this;
       startPosition := getCurrentTime this;
       lastPlay := lastPlay this;
       explicitDuration := explicitDuration this;
       state := Some PAUSED;
       events := events this ++ [Pause; Audioprocess (getCurrentTime this)];
       frames := frames this |}.
Proof.
  intros Hst. expose this. subst this_state.
  unfold pause, fireEvent_pause, setState, state_is, getCurrentTime,
    getPlayedTime.
  assign. now rewrite <- app_assoc.
Qed.

(** [stamp] touches the two anchors only. *)
Lemma stamp_frame (time : value) (this : External) :
  state (stamp time this) = state this /\
  events (stamp time this) = events this /\
  frames (stamp time this) = frames this /\
  startPosition (stamp time this) = startPosition this /\
  playbackRate (stamp time this) = playbackRate this /\
  scheduledPause (stamp time this) = scheduledPause this /\
  explicitDuration (stamp time this) = explicitDuration this /\
  peaks (stamp time this) = peaks this /\
  volume (stamp time this) = volume this.
Proof.
  expose this. unfold stamp.
  destruct time as [ | | n]; assign; try tauto.
  destruct this_anchor as [ | | l]; assign; tauto.
Qed.

Lemma seekTo_frame (start : value) (this : External) :
  startPosition (seekTo start this) =
    (if is_nullish start then
       if js_ge (getCurrentTime this) (getDuration this) then lit 0
       else getCurrentTime this
     else start) /\
  explicitDuration (seekTo start this) = explicitDuration this.
Proof.
  unfold seekTo.
  generalize (if is_nullish start then
                if js_ge (getCurrentTime this) (getDuration this) then lit 0
                else getCurrentTime this
              else start).
  intros v. destruct (setState_frame PAUSED (set_startPosition this v))
    as (Hp & _ & Hd & _).
  branches; rewrite ?Hp, ?Hd; expose this; auto.
Qed.

Lemma count_finish_app (l l' : list event) :
  count_finish (l ++ l') = (count_finish l + count_finish l')%nat.
Proof.
  induction l as [ | e l IH]; simpl; trivial.
  destruct e; simpl; now rewrite IH.
Qed.

(** ** Accessors *)

(** C10: [isPaused()] is true exactly when the state is not Playing; so it
    is true in the state Finished too (and before [load()], when the state
    is still [null]). *)
Theorem isPaused_iff_not_playing (this : External) :
  (isPaused this = true <-> state this <> Some PLAYING) /\
  (state this = Some FINISHED -> isPaused this = true) /\
  (state this = Some PAUSED -> isPaused this = true) /\
  (state this = Some PLAYING -> isPaused this = false).
Proof.
  unfold isPaused, state_is.
  destruct (state this) as [[ | | ]| ]; simpl;
    repeat split; intros; congruence.
Qed.

(** C2: [getCurrentTime()] is [startPosition] when Paused,
    [startPosition + (clockTime - lastPlay) * playbackRate] when Playing
    (a number as soon as the four fields are numbers), and the duration
    when Finished.  It holds in every state, reachable or not. *)
Theorem getCurrentTime_by_state (this : External) :
  (state this = Some PAUSED -> getCurrentTime this = startPosition this) /\
  (state this = Some PLAYING ->
     getCurrentTime this =
       js_add (startPosition this)
         (js_mul (js_sub (clockTime this) (lastPlay this))
            (playbackRate this))) /\
  (state this = Some PLAYING ->
     forall p c l r : Qc,
       startPosition this = VNum (Fin p) ->
       clockTime this = VNum (Fin c) ->
       lastPlay this = VNum (Fin l) ->
       playbackRate this = VNum (Fin r) ->
       getCurrentTime this = VNum (Fin (p + (c - l) * r)%Qc)) /\
  (state this = Some FINISHED ->
     getCurrentTime this = explicitDuration this).
Proof.
  unfold getCurrentTime, getPlayedTime, getDuration.
  repeat split; intros Hst; rewrite Hst; trivial.
  intros p c l r -> -> -> ->. reflexivity.
Qed.

(** *** Played share *)

(** C9, amended: [getPlayedPercents()] is 1 when Finished; otherwise it is
    the quotient of the current time by the duration unless that quotient is
    falsy (0 or NaN), and then it is 0: so it is 0 when the duration is
    [undefined], and when the duration is 0 while the current time is 0. *)
Theorem getPlayedPercents_by_state (this : External) :
  (state this = Some FINISHED -> getPlayedPercents this = lit 1) /\
  (state this <> Some FINISHED ->
     getPlayedPercents this =
       if truthy (js_div (getCurrentTime this) (getDuration this))
       then js_div (getCurrentTime this) (getDuration this)
       else lit 0) /\
  (state this <> Some FINISHED -> getDuration this = VUndefined ->
     getPlayedPercents this = lit 0) /\
  (state this <> Some FINISHED -> getDuration this = lit 0 ->
     getCurrentTime this = lit 0 -> getPlayedPercents this = lit 0).
Proof.
  assert (Hgen : state this <> Some FINISHED ->
            getPlayedPercents this =
              js_or (js_div (getCurrentTime this) (getDuration this)) (lit 0)).
  { unfold getPlayedPercents, state_is.
    destruct (state this) as [[ | | ]| ]; simpl; congruence. }
  split; [ | split; [ | split ] ].
  - intros Hst. unfold getPlayedPercents, state_is. now rewrite Hst.
  - intros Hst. now rewrite Hgen.
  - intros Hst Hd. rewrite Hgen, Hd by assumption.
    unfold js_or, js_div. simpl.
    now destruct (to_number (getCurrentTime this)).
  - intros Hst Hd Hc. rewrite Hgen, Hd, Hc by assumption. reflexivity.
Qed.

(** C9, as stated, fails: on a clip of duration 0 the host seeks to 5; the
    state is Paused, and [getPlayedPercents()] is [5 / 0], that is
    [Infinity], not 0. *)
Lemma getPlayedPercents_zero_duration :
  state empty_clip_at_five = Some PAUSED /\
  getDuration empty_clip_at_five = lit 0 /\
  getPlayedPercents empty_clip_at_five = VNum PInf /\
  getPlayedPercents empty_clip_at_five <> lit 0.
Proof.
  split; [ run_model | ].
  split; [ run_model | ].
  split; run_model.
Qed.

(** ** Seeking *)

(** C8: [seekTo()] without a start stores the current time, or 0 when the
    current time has reached the duration; with a start it stores exactly
    that start; either way a Finished backend becomes Paused (any other
    state is kept), and no event is fired. *)
Theorem seekTo_startPosition (start : value) (this : External) :
  (is_nullish start = true ->
     startPosition (seekTo start this) =
       if js_ge (getCurrentTime this) (getDuration this) then lit 0
       else getCurrentTime this) /\
  (is_nullish start = false -> startPosition (seekTo start this) = start) /\
  (state this = Some FINISHED -> state (seekTo start this) = Some PAUSED) /\
  (state this <> Some FINISHED -> state (seekTo start this) = state this) /\
  events (seekTo start this) = events this.
Proof.
  expose this.
  unfold seekTo, setState, state_is, getCurrentTime, getDuration.
  destruct start as [ | | n], this_state as [[ | | ]| ]; assign;
    repeat match goal with
           | |- context [if ?b then _ else _] => destruct b
           end;
    assign; repeat split; intros; congruence.
Qed.

(** ** Before the first tick *)

(** [play()] leaves both anchors unset, whatever it finds and whether or
    not the clock keeps playing. *)
Lemma play_unsets_anchors (start end_ : value) (this : External) :
  lastPlay (play start end_ this) = VNull /\
  clockTime (play start end_ this) = VNull.
Proof.
  expose this.
  unfold play, fireEvent_play, onAudioProcess, stamp, seekTo.
  unfold state_is at 2. unfold setState at 3. unfold setState at 2.
  unfold state_is. assign.
  destruct this_state as [[ | | ]| ]; assign; branches;
    rewrite ?(proj1 (proj2 (proj2 (proj2 (setState_frame _ _))))),
      ?(proj1 (proj2 (proj2 (proj2 (proj2 (setState_frame _ _)))))),
      ?(proj1 (proj2 (proj2 (proj2 (proj2 (proj2 (proj2 (pause_frame _)))))))),
      ?(proj1 (proj2 (proj2 (proj2 (proj2 (proj2 (proj2 (proj2 (pause_frame _)))))))));
    assign; auto.
Qed.

(** With both anchors unset the played time is [(null - null) * rate],
    which is 0 for a finite rate. *)
Lemma getPlayedTime_unanchored (this : External) (r : Qc) :
  lastPlay this = VNull ->
  clockTime this = VNull ->
  playbackRate this = VNum (Fin r) ->
  getPlayedTime this = lit 0.
Proof.
  intros Hl Hc Hr. unfold getPlayedTime. rewrite Hl, Hc, Hr.
  unfold js_mul, js_sub, lit.
  cbn [to_number num_sub num_add num_mul num_opp]. do 2 f_equal.
  change (Q2Qc 0%Q) with (Q2Qc 0). ring.
Qed.

(** While Playing with both anchors unset, nothing has elapsed. *)
Lemma nothing_elapsed_before_first_tick
    (this : External) (n : num) (r : Qc) :
  state this = Some PLAYING ->
  lastPlay this = VNull ->
  clockTime this = VNull ->
  startPosition this = VNum n ->
  playbackRate this = VNum (Fin r) ->
  getCurrentTime this = VNum n.
Proof.
  intros Hst Hl Hc Hp Hr.
  unfold getCurrentTime.
  rewrite Hst, Hp, (getPlayedTime_unanchored this r Hl Hc Hr).
  unfold js_add, lit. cbn [to_number]. now rewrite num_add_0_r.
Qed.

(** C4, amended: while Playing with both anchors unset, the elapsed part of
    [getCurrentTime()] is [(null - null) * playbackRate], which is 0 for a
    finite rate: the result is [startPosition + 0], the number in
    [startPosition], and not [undefined]. *)
Theorem getCurrentTime_before_first_tick (this : External) (n : num) (r : Qc) :
  state this = Some PLAYING ->
  lastPlay this = VNull ->
  clockTime this = VNull ->
  startPosition this = VNum n ->
  playbackRate this = VNum (Fin r) ->
  getCurrentTime this = js_add (startPosition this) (lit 0) /\
  getCurrentTime this = VNum n /\
  getCurrentTime this <> VUndefined.
Proof.
  intros Hst Hl Hc Hp Hr.
  assert (Hsum : getCurrentTime this = js_add (startPosition this) (lit 0)).
  { unfold getCurrentTime.
    now rewrite Hst, (getPlayedTime_unanchored this r Hl Hc Hr). }
  assert (Hn : getCurrentTime this = VNum n).
  { rewrite Hsum, Hp. unfold js_add, lit. cbn [to_number].
    now rewrite num_add_0_r. }
  split; [ exact Hsum | split; [ exact Hn | ] ].
  rewrite Hn. discriminate.
Qed.

Lemma getCurrentTime_before_first_tick_witness :
  state just_started = Some PLAYING /\
  getCurrentTime just_started = VNum (Fin (Q2Qc 0)).
Proof.
  split; [ run_model | ].
  apply (getCurrentTime_before_first_tick just_started (Fin (Q2Qc 0)) (Q2Qc 1)).
  - run_model.
  - apply play_unsets_anchors.
  - apply play_unsets_anchors.
  - run_model.
  - run_model.
Defined.

(** C4, as stated, fails: after [load(peaks, 10)] and [play()], before any
    tick, the backend is Playing with both anchors unset and
    [getCurrentTime()] is the number 0, not [undefined]. *)
Lemma playing_before_first_tick_is_a_number :
  state just_started = Some PLAYING /\
  lastPlay just_started = VNull /\
  clockTime just_started = VNull /\
  getCurrentTime just_started = lit 0 /\
  getCurrentTime just_started <> VUndefined.
Proof.
  assert (H : getCurrentTime just_started = lit 0) by run_model.
  split; [ run_model | ].
  split; [ apply play_unsets_anchors | ].
  split; [ apply play_unsets_anchors | ].
  split; [ exact H | ].
  rewrite H. discriminate.
Qed.

(** ** Pausing *)

(** C3, on the code: a second [pause()] adds the played time of the last
    session once more, since [pause()] adds it in every state and leaves the
    anchors as they are.  After [play()] and ticks at 0 ms and 2000 ms the
    first [pause()] stores 2 in [startPosition] and the second one 4. *)
Theorem pause_twice_adds_twice :
  (forall this : External,
     startPosition (pause (pause this)) =
       js_add (startPosition (pause this)) (getPlayedTime this)) /\
  state two_seconds_in = Some PLAYING /\
  startPosition (pause two_seconds_in) = lit 2 /\
  startPosition (pause (pause two_seconds_in)) = lit 4 /\
  startPosition (pause (pause two_seconds_in))
    <> startPosition (pause two_seconds_in).
Proof.
  split.
  { intros this.
    destruct (pause_frame (pause this)) as (Hp & _).
    destruct (pause_frame this) as (_ & _ & _ & _ & Hr & _ & Hl & Hc & _).
    rewrite Hp. unfold getPlayedTime. now rewrite Hr, Hl, Hc. }
  split; [ run_model | ].
  split; [ run_model | ].
  split; run_model.
Qed.

(** ** Ticks *)

(** The three branches of a tick on a playing backend. *)
Lemma tick_finishes (time : value) (this : External) :
  state this = Some PLAYING ->
  js_ge (getCurrentTime (stamp time this)) (getDuration this) = true ->
  onAudioProcess time this =
    {| peaks := peaks this;
       playbackRate := playbackRate this;
       volume := volume this;
       scheduledPause := VNull;
       clockTime := clockTime (stamp time this);
       startPosition := getCurrentTime (stamp time this);
       lastPlay := lastPlay (stamp time this);
       explicitDuration := explicitDuration this;
       state := Some FINISHED;
       events :=
         events this
           ++ [Pause; Audioprocess (getCurrentTime (stamp time this)); Finish];
       frames := frames this |}.
Proof.
  intros Hst Hge.
  destruct (stamp_frame time this) as (Hs & He & Hf & _ & Hr & _ & Hd & Hk & Hv).
  unfold onAudioProcess, getDuration in *. rewrite Hd, Hge.
  rewrite pause_playing by congruence.
  unfold setState, state_is. assign.
  rewrite He, Hf, Hr, Hd, Hk, Hv, <- app_assoc. reflexivity.
Qed.

Lemma tick_pauses (time : value) (this : External) :
  state this = Some PLAYING ->
  js_ge (getCurrentTime (stamp time this)) (getDuration this) = false ->
  truthy (scheduledPause this) = true ->
  js_ge (getCurrentTime (stamp time this)) (scheduledPause this) = true ->
  onAudioProcess time this =
    {| peaks := peaks this;
       playbackRate := playbackRate this;
       volume := volume this;
       scheduledPause := VNull;
       clockTime := clockTime (stamp time this);
       startPosition := getCurrentTime (stamp time this);
       lastPlay := lastPlay (stamp time this);
       explicitDuration := explicitDuration this;
       state := Some PAUSED;
       events :=
         events this ++ [Pause; Audioprocess (getCurrentTime (stamp time this))];
       frames := frames this |}.
Proof.
  intros Hst Hge Htr Hsp.
  destruct (stamp_frame time this) as (Hs & He & Hf & _ & Hr & Hp & Hd & Hk & Hv).
  unfold onAudioProcess, getDuration in *. rewrite Hd, Hge, Hp, Htr, Hsp.
  cbn [andb]. rewrite pause_playing by congruence.
  now rewrite He, Hf, Hr, Hd, Hk, Hv.
Qed.

Lemma tick_continues (time : value) (this : External) :
  state this = Some PLAYING ->
  js_ge (getCurrentTime (stamp time this)) (getDuration this) = false ->
  truthy (scheduledPause this)
    && js_ge (getCurrentTime (stamp time this)) (scheduledPause this) = false ->
  onAudioProcess time this =
    {| peaks := peaks this;
       playbackRate := playbackRate this;
       volume := volume this;
       scheduledPause := scheduledPause this;
       clockTime := clockTime (stamp time this);
       startPosition := startPosition this;
       lastPlay := lastPlay (stamp time this);
       explicitDuration := explicitDuration this;
       state := Some PLAYING;
       events :=
         events this ++ [Audioprocess (getCurrentTime (stamp time this))];
       frames := S (frames this) |}.
Proof.
  intros Hst Hge Hsp.
  destruct (stamp_frame time this)
    as (Hs & He & Hf & Hq & Hr & Hp & Hd & Hk & Hv).
  unfold onAudioProcess, getDuration, state_is in *.
  rewrite Hd, Hge, Hp, Hsp, Hs, Hst. cbn [playState_eqb].
  generalize (getCurrentTime (stamp time this)). intros t.
  rewrite <- He, <- Hf, <- Hq, <- Hr, <- Hp, <- Hd, <- Hk, <- Hv, <- Hst, <- Hs.
  destruct (stamp time this). reflexivity.
Qed.

(** A tick on a backend that is not playing stops at the third test. *)
Lemma tick_stopped (time : value) (this : External) :
  state this <> Some PLAYING ->
  state (onAudioProcess time this) <> Some PLAYING.
Proof.
  intros Hst.
  destruct (stamp_frame time this) as (Hs & _).
  unfold onAudioProcess. branches;
    rewrite ?state_setState, ?(proj1 (proj2 (pause_frame _)));
    try congruence.
  unfold state_is in *. rewrite Hs in *.
  destruct (state this) as [[ | | ]| ]; cbn [playState_eqb] in *; congruence.
Qed.

(** *** Calls that cannot finish a clip *)

Lemma quiet_step (c : call) (this : External) :
  quiet c ->
  state this <> Some PLAYING ->
  state (step c this) <> Some PLAYING /\
  count_finish (events (step c this)) = count_finish (events this) /\
  frames (step c this) = frames this.
Proof.
  intros Hq Hst. destruct c; simpl in Hq; try contradiction; cbn [step].
  - expose this. unfold load, setPeaks, setState, state_is.
    destruct this_state as [[ | | ]| ]; assign; repeat split; congruence.
  - expose this. unfold setPeaks. assign. auto.
  - destruct (pause_frame this) as (_ & Hs & _ & He & _ & _ & _ & _ & Hf).
    rewrite Hs, He, Hf, count_finish_app. simpl.
    repeat split; [ congruence | lia ].
  - expose this. unfold seekTo, setState, state_is.
    destruct this_state as [[ | | ]| ]; assign; repeat split; congruence.
  - expose this. unfold setPlaybackRate, isPaused, state_is.
    destruct this_state as [[ | | ]| ]; assign; repeat split; congruence.
  - expose this. unfold setVolume. assign. auto.
Qed.

Lemma quiet_run (cs : list call) (this : External) :
  Forall quiet cs ->
  state this <> Some PLAYING ->
  state (run cs this) <> Some PLAYING /\
  count_finish (events (run cs this)) = count_finish (events this) /\
  frames (run cs this) = frames this.
Proof.
  intros Hq. revert this.
  induction Hq as [ | c cs Hc _ IH]; intros this Hst; simpl; [ auto | ].
  destruct (quiet_step c this Hc Hst) as (Hst' & He & Hf).
  destruct (IH _ Hst') as (Hst'' & He' & Hf').
  repeat split; congruence.
Qed.

(** X1: a tick that reaches a backend which is Finished already (a frame
    requested twice, as after a change of rate while playing) runs [pause()]
    and [setState(FINISHED)] once more: 'finish' is fired again. *)
Lemma tick_when_finished (time : value) (this : External) (d : Qc) :
  state this = Some FINISHED ->
  explicitDuration this = VNum (Fin d) ->
  state (onAudioProcess time this) = Some FINISHED /\
  count_finish (events (onAudioProcess time this)) =
    S (count_finish (events this)).
Proof.
  intros Hst Hd.
  destruct (stamp_frame time this) as (Hs & He & _ & _ & _ & _ & Hd' & _).
  assert (Hge : js_ge (getCurrentTime (stamp time this)) (getDuration this)
                = true).
  { unfold getCurrentTime, getDuration. rewrite Hs, Hst, Hd', Hd.
    unfold js_ge. cbn [to_number num_ge]. apply Qc_leb_le, Qcle_refl. }
  unfold onAudioProcess. unfold getDuration in *. rewrite Hd', Hge.
  destruct (pause_frame (stamp time this)) as (_ & Hp & _ & Hev & _).
  split; [ apply state_setState | ].
  unfold setState, state_is. rewrite Hp. assign.
  destruct (pause (stamp time this)) eqn:E. assign.
  cbn [events] in Hev. rewrite Hev, He, !count_finish_app. simpl. lia.
Qed.

Lemma tick_when_finished_witness :
  state overshoot = Some FINISHED /\
  count_finish (events overshoot) = 1%nat /\
  count_finish (events (onAudioProcess (lit 1016) overshoot)) = 2%nat.
Proof.
  assert (Hst : state overshoot = Some FINISHED) by run_model.
  assert (Hd : explicitDuration overshoot = VNum (Fin (Q2Qc 10)))
    by run_model.
  assert (Hc : count_finish (events overshoot) = 1%nat) by run_model.
  destruct (tick_when_finished (lit 1016) overshoot (Q2Qc 10) Hst Hd)
    as [_ Hc'].
  split; [ exact Hst | ].
  split; [ exact Hc | ].
  rewrite Hc', Hc. reflexivity.
Defined.

(** The finishing tick by itself: on a playing backend, a tick whose
    current time has reached the duration fires 'pause', the 'audioprocess'
    of the pause handler and then 'finish', once; the backend is Finished,
    asks for no further frame, and [getPlayedPercents()] is 1.  The calls
    of the host that follow, short of [play()], fire no 'finish' and ask
    for no frame; frames that were requested before are still delivered. *)
Lemma tick_at_duration_finishes_once (time : value) (this : External) :
  state this = Some PLAYING ->
  js_ge (getCurrentTime (stamp time this)) (getDuration this) = true ->
  events (onAudioProcess time this) =
    events this
      ++ [Pause; Audioprocess (getCurrentTime (stamp time this)); Finish] /\
  count_finish (events (onAudioProcess time this)) =
    S (count_finish (events this)) /\
  state (onAudioProcess time this) = Some FINISHED /\
  frames (onAudioProcess time this) = frames this /\
  getPlayedPercents (onAudioProcess time this) = lit 1 /\
  (forall cs : list call,
     Forall quiet cs ->
     count_finish (events (run cs (onAudioProcess time this))) =
       count_finish (events (onAudioProcess time this)) /\
     frames (run cs (onAudioProcess time this)) = frames this).
Proof.
  intros Hst Hge.
  pose proof (tick_finishes time this Hst Hge) as Htick.
  assert (Hfin : state (onAudioProcess time this) = Some FINISHED)
    by now rewrite Htick.
  split; [ now rewrite Htick | ].
  split; [ rewrite Htick; assign; rewrite count_finish_app; simpl; lia | ].
  split; [ exact Hfin | ].
  split; [ now rewrite Htick | ].
  split.
  - unfold getPlayedPercents, state_is. now rewrite Hfin.
  - intros cs Hq.
    destruct (quiet_run cs (onAudioProcess time this) Hq) as (_ & Hc & Hf);
      [ congruence | ].
    split; [ exact Hc | ]. rewrite Hf. now rewrite Htick.
Qed.

(** C7, amended: on a playing backend whose scheduled pause is truthy (a
    number other than 0), a tick whose current time has reached the
    scheduled pause but not the duration pauses the clock: 'pause' and the
    'audioprocess' of its handler are fired, 'finish' is not, the scheduled
    pause is cleared, the backend is Paused at the time of the tick and
    asks for no further frame. *)
Theorem tick_at_scheduledPause_pauses (time : value) (this : External) :
  state this = Some PLAYING ->
  truthy (scheduledPause this) = true ->
  js_ge (getCurrentTime (stamp time this)) (getDuration this) = false ->
  js_ge (getCurrentTime (stamp time this)) (scheduledPause this) = true ->
  events (onAudioProcess time this) =
    events this ++ [Pause; Audioprocess (getCurrentTime (stamp time this))] /\
  count_finish (events (onAudioProcess time this)) =
    count_finish (events this) /\
  scheduledPause (onAudioProcess time this) = VNull /\
  state (onAudioProcess time this) = Some PAUSED /\
  startPosition (onAudioProcess time this) =
    getCurrentTime (stamp time this) /\
  frames (onAudioProcess time this) = frames this.
Proof.
  intros Hst Htr Hge Hsp.
  rewrite (tick_pauses time this Hst Hge Htr Hsp). assign.
  rewrite count_finish_app. simpl.
  repeat split; trivial. lia.
Qed.

Lemma tick_at_scheduledPause_pauses_witness :
  state pause_at_five = Some PLAYING /\
  scheduledPause pause_at_five = lit 5 /\
  state (onAudioProcess (lit 6000) pause_at_five) = Some PAUSED /\
  scheduledPause (onAudioProcess (lit 6000) pause_at_five) = VNull /\
  count_finish (events (onAudioProcess (lit 6000) pause_at_five)) = 0%nat.
Proof.
  assert (Hst : state pause_at_five = Some PLAYING) by run_model.
  assert (Hsp : scheduledPause pause_at_five = lit 5) by run_model.
  assert (Htr : truthy (scheduledPause pause_at_five) = true) by run_model.
  assert (Hge : js_ge (getCurrentTime (stamp (lit 6000) pause_at_five))
                  (getDuration pause_at_five) = false) by run_model.
  assert (Hpa : js_ge (getCurrentTime (stamp (lit 6000) pause_at_five))
                  (scheduledPause pause_at_five) = true) by run_model.
  destruct (tick_at_scheduledPause_pauses (lit 6000) pause_at_five
              Hst Htr Hge Hpa) as (_ & Hc & Hcl & Hs & _).
  split; [ exact Hst | ].
  split; [ exact Hsp | ].
  split; [ exact Hs | ].
  split; [ exact Hcl | ].
  rewrite Hc. run_model.
Defined.

(** C7, as stated, fails for the scheduled pause 0: after [play(0, 0)] and
    a first tick, a tick at 1000 ms computes the time 1, which has reached
    the scheduled pause and not the duration; the clock keeps playing, no
    'pause' is fired, the scheduled pause stays, and the next frame is
    requested. *)
Lemma tick_ignores_scheduledPause_zero :
  state pause_at_zero = Some PLAYING /\
  scheduledPause pause_at_zero = lit 0 /\
  js_ge (getCurrentTime (stamp (lit 1000) pause_at_zero))
    (scheduledPause pause_at_zero) = true /\
  js_ge (getCurrentTime (stamp (lit 1000) pause_at_zero))
    (getDuration pause_at_zero) = false /\
  state (onAudioProcess (lit 1000) pause_at_zero) = Some PLAYING /\
  scheduledPause (onAudioProcess (lit 1000) pause_at_zero) = lit 0 /\
  existsb is_pause (events (onAudioProcess (lit 1000) pause_at_zero)) = false /\
  frames (onAudioProcess (lit 1000) pause_at_zero) = S (frames pause_at_zero).
Proof.
  split; [ run_model | ].
  split; [ run_model | ].
  split; [ run_model | ].
  split; [ run_model | ].
  split; [ run_model | ].
  split; [ run_model | ].
  split; run_model.
Qed.

(** C6, on the code: 'finish' is fired twice by one run to the end of the
    clip.  In [double_armed] every tick is the callback of a frame that was
    requested and not yet delivered; [setPlaybackRate] on the playing
    backend leaves two frames pending.  The first callback of the frame at
    516 ms computes 10.5 and finishes the clip; the second one finds the
    backend Finished, passes the test [getCurrentTime() >= getDuration()]
    again, and its [pause()] and [setState(FINISHED)] fire 'finish' a
    second time, although [play()] was not called in between. *)
Theorem finish_fired_twice :
  due 0 double_armed ten_seconds = true /\
  state (run (removelast double_armed) ten_seconds) = Some FINISHED /\
  count_finish (events (run (removelast double_armed) ten_seconds)) = 1%nat /\
  frames (run (removelast double_armed) ten_seconds) = 5%nat /\
  state (run double_armed ten_seconds) = Some FINISHED /\
  count_finish (events (run double_armed ten_seconds)) = 2%nat.
Proof.
  split; [ run_model | ].
  split; [ run_model | ].
  split; [ run_model | ].
  split; [ run_model | ].
  split; run_model.
Qed.

(** ** Playing sessions and changes of rate *)

Section Sessions.

Local Open Scope Qc_scope.

(** Once the clock has left Playing, ticks and changes of rate do not
    bring it back. *)
Lemma stopped_step (c : call) (this : External) :
  clock_call c ->
  state this <> Some PLAYING ->
  state (step c this) <> Some PLAYING.
Proof.
  intros Hc Hst.
  destruct c as [ | | | | | [ | | [ | | | r]] | | [ | | [ | | | ms]]];
    simpl in Hc; try contradiction; cbn [step].
  - expose this. unfold setPlaybackRate, isPaused, state_is.
    destruct this_state as [[ | | ]| ]; assign; congruence.
  - now apply tick_stopped.
Qed.

Lemma stopped_run (cs : list call) (this : External) :
  Forall clock_call cs ->
  state this <> Some PLAYING ->
  state (run cs this) <> Some PLAYING.
Proof.
  intros Hcs. revert this.
  induction Hcs as [ | c cs Hc _ IH]; intros this Hst; simpl; trivial.
  apply IH. now apply stopped_step.
Qed.

Lemma anchored_ext (this this' : External) (ticks : list Qc) :
  lastPlay this' = lastPlay this ->
  clockTime this' = clockTime this ->
  anchored this ticks ->
  anchored this' ticks.
Proof.
  unfold anchored. intros -> ->. trivial.
Qed.

(** The current time of a playing backend, by the ticks of its segment. *)
Lemma getCurrentTime_anchored (this : External) (p r : Qc) (ticks : list Qc) :
  state this = Some PLAYING ->
  startPosition this = VNum (Fin p) ->
  playbackRate this = VNum (Fin r) ->
  anchored this ticks ->
  getCurrentTime this = VNum (Fin (p + wall_clock ticks * r)).
Proof.
  intros Hst Hp Hr Ha.
  unfold getCurrentTime, getPlayedTime. rewrite Hst, Hp, Hr.
  destruct ticks as [ | t0 ticks]; destruct Ha as [-> ->]; unfold wall_clock;
    [ | generalize (last (t0 :: ticks) t0); intros tn ];
    unfold js_add, js_mul, js_sub;
    cbn [to_number num_sub num_add num_mul num_opp]; do 2 f_equal;
    try ring.
  field. apply Q2Qc_1000_neq_0.
Qed.

(** A tick extends the segment in progress. *)
Lemma stamp_anchored (ms : Qc) (this : External) (ticks : list Qc) :
  anchored this ticks ->
  anchored (stamp (VNum (Fin ms)) this) (ticks ++ [ms]).
Proof.
  intros Ha. unfold anchored in Ha.
  destruct ticks as [ | t0 ticks]; destruct Ha as [Hl Hc]; expose this;
    subst; unfold stamp; assign; rewrite js_div_1000; assign;
    cbn [app]; unfold anchored; assign.
  - auto.
  - split; trivial. do 3 f_equal. symmetry.
    exact (last_last (t0 :: ticks) ms t0).
Qed.

Lemma js_or_rate (r : Qc) :
  js_or (VNum (Fin r)) (lit 1) = VNum (Fin (effective_rate r)).
Proof.
  unfold js_or, effective_rate, truthy.
  now destruct (Qc_is_zero r).
Qed.

(** [play()] on a paused backend whose position is below the duration:
    playback resumes from that position with both anchors unset, and the
    tick that 'play' runs asks for the first frame. *)
Lemma play_resumes (q r : Qc) (this : External) :
  state this = Some PAUSED ->
  startPosition this = VNum (Fin q) ->
  playbackRate this = VNum (Fin r) ->
  js_ge (VNum (Fin q)) (explicitDuration this) = false ->
  play VUndefined VUndefined this =
    {| peaks := peaks this;
       playbackRate := VNum (Fin r);
       volume := volume this;
       scheduledPause := VUndefined;
       clockTime := VNull;
       startPosition := VNum (Fin q);
       lastPlay := VNull;
       explicitDuration := explicitDuration this;
       state := Some PLAYING;
       events := events this ++ [Play; Audioprocess (VNum (Fin q))];
       frames := S (frames this) |}.
Proof.
  intros Hst Hq Hr Hge. expose this. subst.
  unfold play, seekTo. assign.
  unfold getCurrentTime, getDuration, state_is. assign.
  rewrite Hge. unfold setState, state_is. assign.
  unfold fireEvent_play. assign.
  assert (Hcur : forall evs,
            getCurrentTime
              (stamp VUndefined
                 (mkExternal this_peaks (VNum (Fin r)) this_volume VUndefined
                    VNull (VNum (Fin q)) VNull this_dur (Some PLAYING) evs
                    this_frames)) = VNum (Fin q)).
  { intros evs. unfold stamp. assign.
    now apply nothing_elapsed_before_first_tick with (r := r). }
  rewrite tick_continues.
  - assign. rewrite Hcur. unfold stamp. assign.
    now rewrite <- app_assoc.
  - reflexivity.
  - rewrite Hcur. exact Hge.
  - reflexivity.
Qed.

(** A change of rate while playing: the pause freezes the current time,
    and the play that follows resumes from it. *)
Lemma setPlaybackRate_playing (r' q : Qc) (this : External) :
  state this = Some PLAYING ->
  getCurrentTime this = VNum (Fin q) ->
  js_ge (getCurrentTime this) (getDuration this) = false ->
  state (setPlaybackRate (VNum (Fin r')) this) = Some PLAYING /\
  startPosition (setPlaybackRate (VNum (Fin r')) this) = VNum (Fin q) /\
  playbackRate (setPlaybackRate (VNum (Fin r')) this) =
    VNum (Fin (effective_rate r')) /\
  lastPlay (setPlaybackRate (VNum (Fin r')) this) = VNull /\
  clockTime (setPlaybackRate (VNum (Fin r')) this) = VNull /\
  explicitDuration (setPlaybackRate (VNum (Fin r')) this) =
    explicitDuration this.
Proof.
  intros Hst Hq Hge. rewrite Hq in Hge. unfold getDuration in Hge.
  unfold setPlaybackRate, isPaused, state_is. rewrite Hst. assign.
  rewrite pause_playing, js_or_rate, Hq by assumption. assign.
  rewrite (play_resumes q (effective_rate r')) by (trivial; reflexivity).
  assign. tauto.
Qed.

Lemma session_advance (cs : list call) :
  Forall clock_call cs ->
  forall (this : External) (p r : Qc) (ticks : list Qc),
    state this = Some PLAYING ->
    startPosition this = VNum (Fin p) ->
    playbackRate this = VNum (Fin r) ->
    anchored this ticks ->
    js_ge (getCurrentTime this) (getDuration this) = false ->
    state (run cs this) = Some PLAYING ->
    getCurrentTime (run cs this) =
      VNum (Fin (p + total_advance (segments ticks r cs))).
Proof.
  induction 1 as [ | c cs Hc Hcs IH]; intros this p r ticks Hst Hp Hr Ha Hge Hend.
  - simpl. rewrite (getCurrentTime_anchored this p r ticks) by assumption.
    do 2 f_equal. ring.
  - destruct c as [ | | | | | [ | | [ | | | r']] | | [ | | [ | | | ms]]];
      simpl in Hc; try contradiction; cbn [run step segments] in *.
    + (* setPlaybackRate *)
      pose proof (getCurrentTime_anchored this p r ticks Hst Hp Hr Ha) as Hq.
      destruct (setPlaybackRate_playing r' _ this Hst Hq Hge)
        as (Hst' & Hp' & Hr' & Hl' & Hc' & Hd').
      rewrite (IH _ _ _ [] Hst' Hp' Hr'); trivial.
      * cbn [total_advance]. do 2 f_equal. ring.
      * split; assumption.
      * rewrite (getCurrentTime_anchored _ _ _ [] Hst' Hp' Hr') by (split; assumption).
        unfold getDuration in *. rewrite Hd', <- Hge, Hq.
        do 3 f_equal. unfold wall_clock. ring.
    + (* a tick *)
      set (time := VNum (Fin ms)) in *.
      destruct (stamp_frame time this) as (Hs1 & _ & _ & Hp1 & Hr1 & _ & Hd1 & _).
      pose proof (stamp_anchored ms this ticks Ha) as Ha1. fold time in Ha1.
      destruct (js_ge (getCurrentTime (stamp time this)) (getDuration this))
        eqn:Hge1.
      { exfalso. revert Hend. apply stopped_run; trivial.
        rewrite (tick_finishes time this Hst Hge1). assign. discriminate. }
      destruct (truthy (scheduledPause this)
                && js_ge (getCurrentTime (stamp time this)) (scheduledPause this))
        eqn:Hsp.
      { exfalso. revert Hend. apply stopped_run; trivial.
        apply andb_true_iff in Hsp. destruct Hsp as [Htr Hsp].
        rewrite (tick_pauses time this Hst Hge1 Htr Hsp). assign.
        discriminate. }
      pose proof (tick_continues time this Hst Hge1 Hsp) as Htick.
      assert (Hcur : getCurrentTime (onAudioProcess time this) =
                       getCurrentTime (stamp time this)).
      { rewrite Htick. unfold getCurrentTime, getPlayedTime. assign.
        now rewrite Hs1, Hst, Hp1, Hr1. }
      apply IH; trivial.
      * now rewrite Htick.
      * now rewrite Htick.
      * now rewrite Htick.
      * revert Ha1. apply anchored_ext; now rewrite Htick.
      * rewrite Hcur. unfold getDuration in *. rewrite Htick. assign.
        exact Hge1.
Qed.

Lemma segments_ticks_only (ticks0 ticks : list Qc) (r : Qc) :
  segments ticks0 r (ticks_only ticks) = [(ticks0 ++ ticks, r)].
Proof.
  revert ticks0. induction ticks as [ | ms ticks IH]; intros ticks0; simpl.
  - now rewrite app_nil_r.
  - rewrite IH, <- app_assoc. reflexivity.
Qed.

(** In the model the segments, added in order, amount to the sum of their
    durations times their rates. *)
Lemma played_wall_clock (ticks : list Qc) (rate : Qc) :
  played ticks rate = VNum (Fin (wall_clock ticks * rate)).
Proof.
  unfold played, wall_clock, seconds.
  destruct ticks as [ | t0 ticks];
    [ | generalize (last (t0 :: ticks) t0); intros tn;
        rewrite !js_div_1000 ];
    unfold js_mul, js_sub;
    cbn [to_number num_sub num_add num_mul num_opp]; do 2 f_equal;
    try ring.
  field. apply Q2Qc_1000_neq_0.
Qed.

Lemma position_after_total (segs : list (list Qc * Qc)) (p : Qc) :
  position_after (VNum (Fin p)) segs = VNum (Fin (p + total_advance segs)).
Proof.
  unfold position_after. revert p.
  induction segs as [ | [ticks rate] segs IH]; intros p;
    cbn [fold_left total_advance fst snd].
  - do 2 f_equal. ring.
  - rewrite played_wall_clock. unfold js_add at 2. cbn [to_number num_add].
    rewrite IH. do 2 f_equal. ring.
Qed.

(** C1, amended: a playing session starts at [startPosition = p] with both
    anchors unset and is driven by ticks and by changes of rate.  As long
    as the clock is still Playing, the current time is [p] with the
    segments added in order, each as [(clockTime - lastPlay) * rate] from
    the first tick of the segment to its last one; with no change of rate
    that is [p + (clockTime - lastPlay) * rate].  The first tick after
    [play()] and after every change of rate only anchors, so the time up to
    it is not counted.  The order of the time stamps plays no part. *)
Theorem current_time_by_segments
    (cs : list call) (this : External) (p r : Qc) :
  state this = Some PLAYING ->
  lastPlay this = VNull ->
  clockTime this = VNull ->
  startPosition this = VNum (Fin p) ->
  playbackRate this = VNum (Fin r) ->
  js_ge (getCurrentTime this) (getDuration this) = false ->
  Forall clock_call cs ->
  state (run cs this) = Some PLAYING ->
  getCurrentTime this = VNum (Fin p) /\
  getCurrentTime (run cs this) =
    position_after (VNum (Fin p)) (segments [] r cs) /\
  (forall ticks : list Qc,
     cs = ticks_only ticks ->
     getCurrentTime (run cs this) = js_add (VNum (Fin p)) (played ticks r)).
Proof.
  intros Hst Hl Hc Hp Hr Hge Hcs Hend.
  assert (Hrun : getCurrentTime (run cs this) =
                   position_after (VNum (Fin p)) (segments [] r cs)).
  { rewrite position_after_total.
    apply session_advance; trivial. split; assumption. }
  split; [ | split; [ exact Hrun | ] ].
  - now apply nothing_elapsed_before_first_tick with (r := r).
  - intros ticks ->. rewrite Hrun, segments_ticks_only. reflexivity.
Qed.

Lemma current_time_by_segments_witness :
  state (run two_rates just_started) = Some PLAYING /\
  getCurrentTime (run two_rates just_started) = lit 5.
Proof.
  assert (Hend : state (run two_rates just_started) = Some PLAYING)
    by run_model.
  split; [ exact Hend | ].
  destruct (current_time_by_segments two_rates just_started (Q2Qc 0) (Q2Qc 1))
    as (_ & Hrun & _).
  - run_model.
  - apply play_unsets_anchors.
  - apply play_unsets_anchors.
  - run_model.
  - run_model.
  - run_model.
  - unfold two_rates. repeat (constructor; [ exact I | ]). constructor.
  - exact Hend.
  - rewrite Hrun. run_model.
Defined.

(** C1, as stated, fails: on [just_started] the session [same_rate_again]
    lasts 3 seconds from its first tick to its last one, at rate 1
    throughout, and the clock is still Playing; the current time has
    advanced from 0 to 2, not to 3: the second between the tick before
    [setPlaybackRate] and the tick after it is not counted. *)
Lemma rate_change_drops_the_gap :
  getCurrentTime just_started = lit 0 /\
  playbackRate just_started = lit 1 /\
  ticks_of same_rate_again =
    [Q2Qc 0; Q2Qc 1000; Q2Qc 2000; Q2Qc 3000] /\
  VNum (Fin (wall_clock (ticks_of same_rate_again))) = lit 3 /\
  state (run same_rate_again just_started) = Some PLAYING /\
  playbackRate (run same_rate_again just_started) = lit 1 /\
  getCurrentTime (run same_rate_again just_started) = lit 2 /\
  getCurrentTime (run same_rate_again just_started)
    <> VNum (Fin (Q2Qc 0 + Q2Qc 1 * wall_clock (ticks_of same_rate_again))).
Proof.
  split; [ run_model | ].
  split; [ run_model | ].
  split; [ reflexivity | ].
  split; [ run_model | ].
  split; [ run_model | ].
  split; [ run_model | ].
  split; run_model.
Qed.

End Sessions.

(** ** The position under a well-behaved host *)

Section Soundness.

Local Open Scope Qc_scope.

(** Soundness looks at five fields and at whether the state is set. *)
Lemma sound_ext (this this' : External) :
  sound this ->
  startPosition this' = startPosition this ->
  playbackRate this' = playbackRate this ->
  explicitDuration this' = explicitDuration this ->
  lastPlay this' = lastPlay this ->
  clockTime this' = clockTime this ->
  state this' <> None ->
  sound this'.
Proof.
  intros [Hp Hr Hd Ha _] Ep Er Ed El Ec Hst.
  constructor; rewrite ?Ep, ?Er, ?Ed, ?El, ?Ec; assumption.
Qed.

Lemma sound_set_startPosition (this : External) (q : Qc) :
  sound this -> 0 <= q -> sound (set_startPosition this (VNum (Fin q))).
Proof.
  intros [Hp Hr Hd Ha Hst] Hq. expose this. constructor; assign; eauto.
Qed.

Lemma sound_set_playbackRate (this : External) (r : Qc) :
  sound this -> 0 < r -> sound (set_playbackRate this (VNum (Fin r))).
Proof.
  intros [Hp Hr Hd Ha Hst] Hq. expose this. constructor; assign; eauto.
Qed.

Lemma sound_set_scheduledPause (this : External) (v : value) :
  sound this -> sound (set_scheduledPause this v).
Proof.
  intros Hs. apply (sound_ext this); trivial; expose this; trivial.
  apply (loaded _ Hs).
Qed.

Lemma sound_emit (this : External) (e : event) :
  sound this -> sound (emit this e).
Proof.
  intros Hs. apply (sound_ext this); trivial; expose this; trivial.
  apply (loaded _ Hs).
Qed.

Lemma sound_requestAnimationFrame (this : External) :
  sound this -> sound (requestAnimationFrame this).
Proof.
  intros Hs. apply (sound_ext this); trivial; expose this; trivial.
  apply (loaded _ Hs).
Qed.

Lemma sound_unanchor (this : External) :
  sound this -> sound (set_clockTime (set_lastPlay this VNull) VNull).
Proof.
  intros [Hp Hr Hd Ha Hst]. expose this. constructor; assign; auto.
Qed.

Lemma sound_setState (st : playState) (this : External) :
  sound this -> sound (setState st this).
Proof.
  intros Hs. destruct (setState_frame st this) as (? & ? & ? & ? & ? & _).
  apply (sound_ext this); trivial.
  rewrite state_setState. discriminate.
Qed.

(** The played time of a sound backend is a number that is not negative. *)
Lemma sound_getPlayedTime (this : External) :
  sound this -> exists e, getPlayedTime this = VNum (Fin e) /\ 0 <= e.
Proof.
  intros [_ (r & Hr & Hr0) _ Ha _]. unfold getPlayedTime. rewrite Hr.
  destruct Ha as [[-> ->] | (l & c & -> & -> & Hlc)];
    unfold js_mul, js_sub; cbn [to_number num_sub num_add num_mul num_opp];
    eexists; (split; [ reflexivity | ]).
  - replace ((0 + - 0) * r) with (Q2Qc 0) by ring. apply Qcle_refl.
  - replace 0 with (0 * r) by ring. apply Qcmult_le_compat_r.
    + now apply Qcle_minus_iff in Hlc.
    + now apply Qclt_le_weak.
Qed.

Lemma Qc_sum_nonneg (x y : Qc) : 0 <= x -> 0 <= y -> 0 <= x + y.
Proof.
  intros Hx Hy. replace 0 with (0 + 0) by ring.
  now apply Qcplus_le_compat.
Qed.

Lemma sound_pause (this : External) : sound this -> sound (pause this).
Proof.
  intros Hs.
  destruct (pause_frame this) as (Hp & Hst & _ & _ & Hr & Hd & Hl & Hc & _).
  destruct (sound_getPlayedTime this Hs) as (e & He & He0).
  destruct Hs as [(p & Hp0 & Hp1) Hrate Hdur Ha _].
  constructor; rewrite ?Hr, ?Hd, ?Hl, ?Hc; trivial.
  - exists (p + e). rewrite Hp, Hp0, He. split; [ reflexivity | ].
    now apply Qc_sum_nonneg.
  - rewrite Hst. discriminate.
Qed.

(** The current time of a sound backend that has not finished is a number
    that is not negative. *)
Lemma sound_getCurrentTime (this : External) :
  sound this ->
  state this <> Some FINISHED ->
  exists q, getCurrentTime this = VNum (Fin q) /\ 0 <= q.
Proof.
  intros Hs Hst.
  destruct (sound_getPlayedTime this Hs) as (e & He & He0).
  destruct Hs as [(p & Hp0 & Hp1) _ _ _ Hl].
  unfold getCurrentTime.
  destruct (state this) as [[ | | ]| ]; try congruence.
  - exists (p + e). rewrite Hp0, He. split; [ reflexivity | ].
    now apply Qc_sum_nonneg.
  - eauto.
Qed.

(** A tick that is not older than the last one keeps the anchors in order. *)
Lemma sound_stamp (ms : Qc) (this : External) :
  sound this ->
  admissible (Ctick (VNum (Fin ms))) this ->
  sound (stamp (VNum (Fin ms)) this).
Proof.
  intros [Hp Hr Hd Ha Hst] Hadm. expose this.
  unfold stamp. assign. rewrite js_div_1000.
  destruct Ha as [[-> ->] | (l & c & -> & -> & Hlc)]; assign;
    constructor; assign; trivial; right.
  - exists (ms / Q2Qc 1000), (ms / Q2Qc 1000). repeat split. apply Qcle_refl.
  - exists l, (ms / Q2Qc 1000). repeat split.
    apply Qcle_trans with (y := c); assumption.
Qed.

(** What a tick does after it has stored its time stamp. *)
Lemma sound_onAudioProcess (time : value) (this : External) :
  sound (stamp time this) -> sound (onAudioProcess time this).
Proof.
  intros Hs. unfold onAudioProcess. branches; trivial.
  - now apply sound_setState, sound_pause.
  - now apply sound_pause.
  - now apply sound_requestAnimationFrame, sound_emit.
Qed.

Lemma stamp_undefined (this : External) : stamp VUndefined this = this.
Proof. reflexivity. Qed.

(** Where [seekTo] puts the position: at a number that is not negative,
    and, when no start is given, not beyond the duration. *)
Lemma seekTo_target (start : value) (this : External) :
  sound this ->
  start_ok start ->
  exists q,
    (if is_nullish start then
       if js_ge (getCurrentTime this) (getDuration this) then lit 0
       else getCurrentTime this
     else start) = VNum (Fin q) /\
    0 <= q /\
    (is_nullish start = true ->
     forall d, explicitDuration this = VNum (Fin d) -> q <= d).
Proof.
  intros Hs Hok.
  destruct start as [ | | [ | | | s]]; simpl in Hok; try contradiction;
    cbn [is_nullish].
  3: { exists s. repeat split; trivial. discriminate. }
  all: destruct (duration_known _ Hs) as (d & Hd & Hd0);
    unfold getDuration; rewrite Hd;
    destruct (js_ge (getCurrentTime this) (VNum (Fin d))) eqn:Hge.
  all: try (exists 0; repeat split; [ apply Qcle_refl | ];
            intros _ d' Hd'; congruence).
  all: assert (Hst : state this <> Some FINISHED)
         by (intros Hst; unfold getCurrentTime, getDuration in Hge;
             rewrite Hst, Hd in Hge; unfold js_ge in Hge; simpl in Hge;
             apply Qc_leb_gt in Hge; now apply Qclt_not_eq in Hge).
  all: destruct (sound_getCurrentTime this Hs Hst) as (q & Hq & Hq0);
    exists q; repeat split; trivial;
    intros _ d' Hd'; rewrite Hq in Hge; unfold js_ge in Hge; simpl in Hge;
    apply Qc_leb_gt in Hge; apply Qclt_le_weak; congruence.
Qed.

Lemma sound_seekTo (start : value) (this : External) :
  sound this -> start_ok start -> sound (seekTo start this).
Proof.
  intros Hs Hok.
  destruct (seekTo_target start this Hs Hok) as (q & Hq & Hq0 & _).
  unfold seekTo. rewrite Hq.
  branches; [ apply sound_setState | ]; now apply sound_set_startPosition.
Qed.

Lemma sound_play (start end_ : value) (this : External) :
  sound this -> start_ok start -> sound (play start end_ this).
Proof.
  intros Hs Hok. unfold play, fireEvent_play.
  apply sound_onAudioProcess. rewrite stamp_undefined.
  apply sound_emit, sound_unanchor, sound_setState, sound_set_scheduledPause.
  now apply sound_seekTo.
Qed.

(** The rate that [setPlaybackRate] stores for an acceptable argument. *)
Lemma rate_ok_js_or (v : value) :
  rate_ok v -> exists r, js_or v (lit 1) = VNum (Fin r) /\ 0 < r.
Proof.
  intros Hok. unfold js_or.
  destruct v as [ | | [ | | | r]]; simpl in Hok; try contradiction;
    cbn [truthy]; try (exists 1; split; reflexivity).
  destruct (Qc_is_zero r) eqn:Hz; cbn [negb].
  - exists 1; split; reflexivity.
  - exists r. split; trivial.
    apply Qc_is_zero_false in Hz. apply Qcle_lt_or_eq in Hok.
    destruct Hok as [Hlt | Heq]; [ exact Hlt | congruence ].
Qed.

Lemma sound_setPlaybackRate (v : value) (this : External) :
  sound this -> rate_ok v -> sound (setPlaybackRate v this).
Proof.
  intros Hs Hok. destruct (rate_ok_js_or v Hok) as (r & Hr & Hr0).
  unfold setPlaybackRate. rewrite Hr.
  destruct (isPaused this).
  - now apply sound_set_playbackRate.
  - apply sound_play; [ | exact I ].
    apply sound_set_playbackRate; [ now apply sound_pause | exact Hr0 ].
Qed.

Lemma sound_setPeaks (p : option (list num)) (d : value) (this : External) :
  sound this -> duration_ok d -> sound (setPeaks p d this).
Proof.
  intros [Hp Hr Hd Ha Hst] Hok.
  destruct d as [ | | [ | | | d]]; simpl in Hok; try contradiction.
  expose this. unfold setPeaks. constructor; assign; eauto.
Qed.

(** [load] makes a backend sound whose rate is positive and whose anchors
    are in order, as they are after [init]. *)
Lemma sound_load (p : option (list num)) (d : value) (this : External) :
  (exists r, playbackRate this = VNum (Fin r) /\ 0 < r) ->
  (lastPlay this = VNull /\ clockTime this = VNull) \/
  (exists l c, lastPlay this = VNum (Fin l) /\
               clockTime this = VNum (Fin c) /\ l <= c) ->
  duration_ok d ->
  sound (load p d this).
Proof.
  intros Hr Ha Hok.
  destruct d as [ | | [ | | | d]]; simpl in Hok; try contradiction.
  expose this. unfold load, setPeaks, setState, state_is.
  destruct this_state as [[ | | ]| ]; assign;
    (constructor; assign; eauto; try discriminate;
     exists 0; split; [ reflexivity | apply Qcle_refl ]).
Qed.

Lemma sound_step (c : call) (this : External) :
  sound this -> admissible c this -> sound (step c this).
Proof.
  intros Hs Hadm. destruct c; cbn [step admissible] in *.
  - apply sound_load; trivial;
      [ apply (rate_positive _ Hs) | apply (anchors_ordered _ Hs) ].
  - now apply sound_setPeaks.
  - now apply sound_play.
  - now apply sound_pause.
  - now apply sound_seekTo.
  - now apply sound_setPlaybackRate.
  - unfold setVolume. apply (sound_ext this); trivial; expose this; trivial.
    apply (loaded _ Hs).
  - destruct time as [ | | [ | | | ms]]; try contradiction.
    now apply sound_onAudioProcess, sound_stamp.
Qed.

Lemma sound_run (cs : list call) (this : External) :
  sound this -> admissible_run cs this -> sound (run cs this).
Proof.
  revert this. induction cs as [ | c cs IH]; intros this Hs Hadm; trivial.
  destruct Hadm as [Hc Hcs]. apply IH; trivial. now apply sound_step.
Qed.

Lemma sound_loaded
    (audioRate duration : value) (p : option (list num)) :
  rate_ok audioRate ->
  duration_ok duration ->
  sound (load p duration (init audioRate constructor)).
Proof.
  intros Hr Hd. destruct (rate_ok_js_or audioRate Hr) as (r & Hor & Hr0).
  apply sound_load; trivial;
    unfold init, setPlaybackRate, isPaused, state_is, constructor;
    rewrite Hor; assign.
  - eauto.
  - left. split; reflexivity.
Qed.

(** C5, amended: after [init()] and [load(peaks, D)] with [D >= 0], under
    a host that seeks to no negative position, sets no negative or infinite
    rate and delivers its ticks in order, [startPosition] is at every
    boundary a number that is not negative.  Above it is bounded only by
    [seekTo()] without a start, which leaves it in [[0, D]]; and once
    Finished, [getCurrentTime()] is [D] whatever [startPosition] holds. *)
Theorem startPosition_not_negative
    (audioRate duration : value) (p : option (list num)) (cs : list call) :
  rate_ok audioRate ->
  duration_ok duration ->
  admissible_run cs (load p duration (init audioRate constructor)) ->
  (exists q,
     startPosition (run cs (load p duration (init audioRate constructor))) =
       VNum (Fin q) /\ 0 <= q) /\
  within_clip
    (seekTo VUndefined
       (run cs (load p duration (init audioRate constructor)))) /\
  (state (run cs (load p duration (init audioRate constructor))) =
     Some FINISHED ->
   getCurrentTime (run cs (load p duration (init audioRate constructor))) =
     explicitDuration (run cs (load p duration (init audioRate constructor)))).
Proof.
  intros Hr Hd Hadm.
  set (this := run cs (load p duration (init audioRate constructor))).
  assert (Hs : sound this)
    by (apply sound_run; [ now apply sound_loaded | exact Hadm ]).
  split; [ apply (position_ok _ Hs) | split ].
  - destruct (seekTo_target VUndefined this Hs I) as (q & Hq & Hq0 & Hle).
    destruct (seekTo_frame VUndefined this) as [Hp Hdur].
    destruct (duration_known _ Hs) as (d & Hd' & Hd0).
    exists q, d. rewrite Hp, Hdur. repeat split; trivial.
    now apply Hle.
  - intros Hst. unfold getCurrentTime. now rewrite Hst.
Qed.

Lemma admissible_past_the_end : admissible_run past_the_end ten_seconds.
Proof.
  unfold past_the_end. cbn [admissible_run admissible].
  split; [ apply Qc_leb_le; vm_compute; reflexivity | ].
  split; [ vm_compute; exact I | ].
  split; [ vm_compute; discriminate | ].
  split; [ exact I | ].
  split; [ apply Qc_leb_le; vm_compute; reflexivity | exact I ].
Qed.

Lemma startPosition_not_negative_witness :
  within_clip (seekTo VUndefined (run past_the_end ten_seconds)).
Proof.
  apply (startPosition_not_negative VUndefined (lit 10) None past_the_end).
  - exact I.
  - apply Qc_leb_le. vm_compute. reflexivity.
  - exact admissible_past_the_end.
Defined.

(** C5, as stated, fails: the host of [past_the_end] respects the
    contract, and its explicit seek leaves [startPosition] at 100 on a clip
    of 10 seconds; and on [overshoot] the finishing tick leaves it at 10.5. *)
Lemma startPosition_not_clamped :
  admissible_run past_the_end ten_seconds /\
  startPosition (run past_the_end ten_seconds) = lit 100 /\
  explicitDuration (run past_the_end ten_seconds) = lit 10 /\
  ~ within_clip (run past_the_end ten_seconds) /\
  state overshoot = Some FINISHED /\
  startPosition overshoot = lit 10.5 /\
  ~ within_clip overshoot.
Proof.
  assert (Hp : startPosition (run past_the_end ten_seconds) = lit 100)
    by run_model.
  assert (Hd : explicitDuration (run past_the_end ten_seconds) = lit 10)
    by run_model.
  assert (Hp' : startPosition overshoot = lit 10.5) by run_model.
  assert (Hd' : explicitDuration overshoot = lit 10) by run_model.
  split; [ exact admissible_past_the_end | ].
  split; [ exact Hp | ].
  split; [ exact Hd | ].
  split.
  { intros (q & d & Hq & Hdq & _ & Hle).
    rewrite Hp in Hq. rewrite Hd in Hdq.
    injection Hq as <-. injection Hdq as <-.
    apply Qc_leb_le in Hle. vm_compute in Hle. discriminate Hle. }
  split; [ run_model | ].
  split; [ exact Hp' | ].
  intros (q & d & Hq & Hdq & _ & Hle).
  rewrite Hp' in Hq. rewrite Hd' in Hdq.
  injection Hq as <-. injection Hdq as <-.
  apply Qc_leb_le in Hle. vm_compute in Hle. discriminate Hle.
Qed.

End Soundness.

(** ** Further properties of the operations *)

Section Further.

Local Open Scope Qc_scope.

Lemma num_div_zero_falsy (n : num) :
  truthy (VNum (num_div (Fin 0) n)) = false.
Proof.
  destruct n as [ | | | d]; cbn [num_div truthy]; trivial.
  destruct (Qc_is_zero d) eqn:Hz.
  - reflexivity.
  - cbn [truthy]. replace (0 / d) with (Q2Qc 0).
    + reflexivity.
    + apply Qc_is_zero_false in Hz. field. exact Hz.
Qed.

(** X2: [load(peaks, duration)] resets the transport in every state: the
    position is 0, no pause is scheduled, the backend is Paused, the peaks
    and the duration are the ones given, the rate is kept and nothing is
    fired; [getCurrentTime()] is 0 and [getPlayedPercents()] is 0 whatever
    the duration is, 0, NaN, [null] and [undefined] included. *)
Theorem load_resets
    (p : option (list num)) (duration : value) (this : External) :
  startPosition (load p duration this) = lit 0 /\
  scheduledPause (load p duration this) = VNull /\
  state (load p duration this) = Some PAUSED /\
  getDuration (load p duration this) = duration /\
  peaks (load p duration this) = p /\
  events (load p duration this) = events this /\
  playbackRate (load p duration this) = playbackRate this /\
  getCurrentTime (load p duration this) = lit 0 /\
  getPlayedPercents (load p duration this) = lit 0.
Proof.
  expose this.
  unfold getPlayedPercents, getCurrentTime, getDuration, load, setPeaks,
    setState, state_is.
  destruct this_state as [[ | | ]| ]; assign;
    (repeat (split; [ reflexivity | ]));
    unfold js_or, js_div, lit; cbn [to_number];
    now rewrite num_div_zero_falsy.
Qed.

(** X3: [seekTo(s)] with a number on a backend that is Paused or Finished
    leaves it Paused with [getCurrentTime()] equal to [s], whatever [s] is
    (no clamping); nothing is fired and no frame is requested. *)
Theorem seekTo_when_stopped (start : num) (this : External) :
  state this = Some PAUSED \/ state this = Some FINISHED ->
  state (seekTo (VNum start) this) = Some PAUSED /\
  getCurrentTime (seekTo (VNum start) this) = VNum start /\
  isPaused (seekTo (VNum start) this) = true /\
  events (seekTo (VNum start) this) = events this /\
  frames (seekTo (VNum start) this) = frames this.
Proof.
  intros Hst. expose this.
  unfold isPaused, getCurrentTime, seekTo, setState, state_is.
  destruct Hst as [-> | ->]; assign; repeat split; reflexivity.
Qed.

(** *** What the transport leaves alone *)

Lemma same_settings_refl (a : External) : same_settings a a.
Proof. repeat split. Qed.

Lemma same_settings_trans (a b c : External) :
  same_settings a b -> same_settings b c -> same_settings a c.
Proof.
  intros (H1 & H2 & H3 & H4) (K1 & K2 & K3 & K4).
  repeat split; congruence.
Qed.

Lemma setState_settings (st : playState) (this : External) :
  same_settings (setState st this) this.
Proof.
  expose this. unfold setState, state_is, same_settings. assign.
  branches; [ destruct st | ]; assign; repeat split; reflexivity.
Qed.

Lemma pause_settings (this : External) : same_settings (pause this) this.
Proof.
  expose this.
  unfold pause, fireEvent_pause, setState, state_is, same_settings.
  destruct this_state as [[ | | ]| ]; assign; repeat split; reflexivity.
Qed.

Lemma stamp_settings (time : value) (this : External) :
  same_settings (stamp time this) this.
Proof.
  destruct (stamp_frame time this) as (_ & _ & _ & _ & Hr & _ & Hd & Hp & Hv).
  repeat split; assumption.
Qed.

Lemma onAudioProcess_settings (time : value) (this : External) :
  same_settings (onAudioProcess time this) this.
Proof.
  unfold onAudioProcess.
  apply same_settings_trans with (b := stamp time this);
    [ | apply stamp_settings ].
  generalize (stamp time this). intros s.
  branches.
  - eapply same_settings_trans; [ apply setState_settings | ].
    apply pause_settings.
  - apply pause_settings.
  - expose s. unfold same_settings. assign. repeat split; reflexivity.
  - apply same_settings_refl.
Qed.

Lemma seekTo_settings (start : value) (this : External) :
  same_settings (seekTo start this) this.
Proof.
  expose this. unfold seekTo, setState, state_is, same_settings.
  destruct this_state as [[ | | ]| ]; assign; repeat split; reflexivity.
Qed.

Lemma play_settings (start end_ : value) (this : External) :
  same_settings (play start end_ this) this.
Proof.
  unfold play, fireEvent_play.
  eapply same_settings_trans; [ apply onAudioProcess_settings | ].
  apply same_settings_trans with (b := seekTo start this);
    [ | apply seekTo_settings ].
  generalize (seekTo start this). intros s.
  apply same_settings_trans
    with (b := setState PLAYING (set_scheduledPause s end_)).
  - generalize (setState PLAYING (set_scheduledPause s end_)). intros s'.
    expose s'. unfold same_settings. assign. repeat split; reflexivity.
  - eapply same_settings_trans; [ apply setState_settings | ].
    expose s. unfold same_settings. assign. repeat split; reflexivity.
Qed.

Lemma truthy_js_or_one (v : value) : truthy (js_or v (lit 1)) = true.
Proof.
  unfold js_or. destruct (truthy v) eqn:Hv; [ exact Hv | ].
  vm_compute. reflexivity.
Qed.

Lemma setPlaybackRate_settings (v : value) (this : External) :
  same_settings (setPlaybackRate v this)
    (set_playbackRate this (js_or v (lit 1))).
Proof.
  unfold setPlaybackRate. destruct (isPaused this).
  - apply same_settings_refl.
  - eapply same_settings_trans; [ apply play_settings | ].
    destruct (pause_settings this) as (Hr & Hp & Hv & Hd).
    destruct (pause this) as [k r w s c q a d st e f].
    expose this. unfold same_settings in *. assign. tauto.
Qed.

(** X4: [setPlaybackRate(v)] stores [v || 1] in every state, through the
    pause and play of a playing backend too: the stored rate is never 0,
    NaN, [null] or [undefined].  On a backend that is not playing nothing
    else changes and nothing is fired. *)
Theorem setPlaybackRate_stores (v : value) (this : External) :
  getPlaybackRate (setPlaybackRate v this) = js_or v (lit 1) /\
  truthy (getPlaybackRate (setPlaybackRate v this)) = true /\
  (isPaused this = true ->
   setPlaybackRate v this = set_playbackRate this (js_or v (lit 1))).
Proof.
  destruct (setPlaybackRate_settings v this) as (Hr & _).
  unfold getPlaybackRate. rewrite Hr.
  split; [ expose this; reflexivity | ].
  split; [ expose this; assign; apply truthy_js_or_one | ].
  intros Hp. unfold setPlaybackRate. now rewrite Hp.
Qed.

Lemma step_keeps_clip (c : call) (this : External) :
  transport c ->
  peaks (step c this) = peaks this /\
  volume (step c this) = volume this /\
  explicitDuration (step c this) = explicitDuration this.
Proof.
  intros Hc. destruct c; simpl in Hc; try contradiction; cbn [step].
  - destruct (play_settings start end_ this) as (_ & Hp & Hv & Hd). auto.
  - destruct (pause_settings this) as (_ & Hp & Hv & Hd). auto.
  - destruct (seekTo_settings start this) as (_ & Hp & Hv & Hd). auto.
  - destruct (setPlaybackRate_settings v this) as (_ & Hp & Hv & Hd).
    rewrite Hp, Hv, Hd. expose this. auto.
  - destruct (onAudioProcess_settings time this) as (_ & Hp & Hv & Hd). auto.
Qed.

(** X5: the transport never touches the clip: whatever is played, paused,
    sought, ticked or set as rate, [getPeaks()], [getDuration()] and
    [getVolume()] answer as before. *)
Theorem transport_keeps_clip (cs : list call) (this : External) :
  Forall transport cs ->
  getPeaks (run cs this) = getPeaks this /\
  getDuration (run cs this) = getDuration this /\
  getVolume (run cs this) = getVolume this.
Proof.
  intros Hcs. revert this.
  induction Hcs as [ | c cs Hc _ IH]; intros this; cbn [run]; [ auto | ].
  destruct (IH (step c this)) as (Hp & Hd & Hv).
  destruct (step_keeps_clip c this Hc) as (Kp & Kv & Kd).
  unfold getPeaks, getDuration, getVolume in *.
  rewrite Hp, Hd, Hv, Kp, Kv, Kd. auto.
Qed.

(** *** The event log *)

Lemma reported_app (l l' : list event) :
  reported l -> reported l' -> reported (l ++ l').
Proof.
  intros Hl Hl'. induction Hl; cbn [app]; trivial; now constructor.
Qed.

Lemma setState_events (st : playState) (this : External) :
  events (setState st this) =
    match st with
    | FINISHED =>
        if state_is this FINISHED then events this
        else events this ++ [Finish]
    | _ => events this
    end.
Proof.
  expose this. unfold setState, state_is. assign.
  destruct this_state as [[ | | ]| ], st; reflexivity.
Qed.

Lemma onAudioProcess_adds (time : value) (this : External) :
  exists d, adds this (onAudioProcess time this) d.
Proof.
  destruct (stamp_frame time this) as (_ & He & _).
  unfold onAudioProcess, adds. rewrite <- He.
  generalize (stamp time this). intros s.
  destruct (pause_frame s) as (_ & Hst & _ & Hev & _).
  branches.
  - exists [Pause;
            Audioprocess (js_add (startPosition s) (getPlayedTime s)); Finish].
    rewrite setState_events, state_setState. unfold state_is.
    rewrite Hst, Hev, <- app_assoc. cbn [playState_eqb app].
    repeat split; [ repeat constructor | right; split; reflexivity ].
  - eexists. split; [ exact Hev | ].
    split; [ repeat constructor | left; reflexivity ].
  - exists [Audioprocess (getCurrentTime s)].
    split; [ expose s; reflexivity | ].
    split; [ repeat constructor | left; reflexivity ].
  - exists []. rewrite app_nil_r.
    split; [ reflexivity | ]. split; [ constructor | left; reflexivity ].
Qed.

Lemma play_adds (start end_ : value) (this : External) :
  exists d, adds this (play start end_ this) (Play :: d).
Proof.
  unfold play, fireEvent_play.
  set (x := emit _ Play).
  assert (Hx : events x = events this ++ [Play]).
  { unfold x.
    assert (He : events (seekTo start this) = events this).
    { expose this. unfold seekTo, setState, state_is.
      destruct this_state as [[ | | ]| ]; reflexivity. }
    rewrite <- He. generalize (seekTo start this). intros s.
    assert (He' : events (setState PLAYING (set_scheduledPause s end_))
                  = events s).
    { rewrite setState_events. expose s. reflexivity. }
    rewrite <- He'.
    generalize (setState PLAYING (set_scheduledPause s end_)). intros s'.
    expose s'. reflexivity. }
  destruct (onAudioProcess_adds VUndefined x) as (d & He & Hr & Hf).
  exists d. unfold adds. rewrite He, Hx, <- app_assoc.
  split; [ reflexivity | ]. split; [ now constructor | exact Hf ].
Qed.

Lemma step_adds (c : call) (this : External) :
  exists d, adds this (step c this) d.
Proof.
  destruct c; cbn [step].
  - exists []. unfold adds. rewrite app_nil_r.
    split; [ | split; [ constructor | left; reflexivity ] ].
    expose this. unfold load, setPeaks, setState, state_is.
    destruct this_state as [[ | | ]| ]; reflexivity.
  - exists []. unfold adds. rewrite app_nil_r.
    split; [ | split; [ constructor | left; reflexivity ] ].
    expose this. reflexivity.
  - destruct (play_adds start end_ this) as (d & Hd). eauto.
  - destruct (pause_frame this) as (_ & _ & _ & Hev & _).
    eexists. split; [ exact Hev | ].
    split; [ repeat constructor | left; reflexivity ].
  - exists []. unfold adds. rewrite app_nil_r.
    split; [ | split; [ constructor | left; reflexivity ] ].
    expose this. unfold seekTo, setState, state_is.
    destruct this_state as [[ | | ]| ]; reflexivity.
  - unfold setPlaybackRate. destruct (isPaused this).
    + exists []. unfold adds. rewrite app_nil_r.
      split; [ | split; [ constructor | left; reflexivity ] ].
      expose this. reflexivity.
    + destruct (pause_frame this) as (_ & _ & _ & Hev & _).
      set (x := set_playbackRate (pause this) (js_or v (lit 1))).
      assert (Hx : events x = events (pause this))
        by (unfold x; destruct (pause this); reflexivity).
      destruct (play_adds VUndefined VUndefined x) as (d & He & Hr & Hf).
      eexists. unfold adds. rewrite He, Hx, Hev, <- app_assoc.
      split; [ reflexivity | ].
      split; [ cbn [app]; now constructor | exact Hf ].
  - exists []. unfold adds. rewrite app_nil_r.
    split; [ | split; [ constructor | left; reflexivity ] ].
    expose this. reflexivity.
  - apply onAudioProcess_adds.
Qed.

(** X6: no call fires 'finish' twice, and a call that fires it leaves the
    backend Finished: this holds for every call in every state, stale ticks
    and [play()] on a clip of no duration included. *)
Theorem finish_once_per_call (c : call) (this : External) :
  count_finish (events (step c this)) = count_finish (events this) \/
  count_finish (events (step c this)) = S (count_finish (events this)) /\
  state (step c this) = Some FINISHED.
Proof.
  destruct (step_adds c this) as (d & He & _ & [Hf | [Hf Hst]]);
    rewrite He, count_finish_app, Hf.
  - left. lia.
  - right. split; [ lia | exact Hst ].
Qed.

(** X7: every 'pause' in the log is followed at once by an 'audioprocess':
    the handler that [createTimer] registers reports the position of every
    pause, whoever paused. *)
Theorem pauses_are_reported (cs : list call) (this : External) :
  reported (events this) ->
  reported (events (run cs this)).
Proof.
  revert this. induction cs as [ | c cs IH]; intros this Hr; cbn [run];
    trivial.
  apply IH. destruct (step_adds c this) as (d & He & Hd & _).
  rewrite He. now apply reported_app.
Qed.

(** *** Re-arming *)

Lemma state_is_PLAYING (this : External) :
  state_is this PLAYING = true <-> state this = Some PLAYING.
Proof.
  unfold state_is. destruct (state this) as [[ | | ]| ]; cbn [playState_eqb];
    split; congruence.
Qed.

(** The four ways a tick can end, after it has stored its time stamp. *)
Lemma onAudioProcess_cases (time : value) (this : External) :
  onAudioProcess time this = setState FINISHED (pause (stamp time this)) \/
  onAudioProcess time this = pause (stamp time this) \/
  state (stamp time this) = Some PLAYING /\
  onAudioProcess time this =
    requestAnimationFrame
      (emit (stamp time this)
         (Audioprocess (getCurrentTime (stamp time this)))) \/
  state (stamp time this) <> Some PLAYING /\
  onAudioProcess time this = stamp time this.
Proof.
  unfold onAudioProcess. generalize (stamp time this). intros s.
  destruct (js_ge (getCurrentTime s) (getDuration s)); [ now left | ].
  destruct (truthy (scheduledPause s)
            && js_ge (getCurrentTime s) (scheduledPause s));
    [ now right; left | ].
  destruct (state_is s PLAYING) eqn:Hpl.
  - right; right; left. split; [ now apply state_is_PLAYING | reflexivity ].
  - right; right; right. split; [ | reflexivity ].
    intros H. apply state_is_PLAYING in H. congruence.
Qed.

Lemma onAudioProcess_frames (time : value) (this : External) :
  frames (onAudioProcess time this) =
    if state_is (onAudioProcess time this) PLAYING then S (frames this)
    else frames this.
Proof.
  destruct (stamp_frame time this) as (_ & _ & Hf & _).
  rewrite <- Hf.
  destruct (onAudioProcess_cases time this) as [H | [H | [[Hs H] | [Hs H]]]];
    rewrite H; clear H; revert Hs || idtac;
    generalize (stamp time this); intros s.
  - destruct (pause_frame s) as (_ & _ & _ & _ & _ & _ & _ & _ & Hfr).
    destruct (setState_frame FINISHED (pause s))
      as (_ & _ & _ & _ & _ & _ & Hfs).
    unfold state_is. now rewrite state_setState, Hfs, Hfr.
  - destruct (pause_frame s) as (_ & Hst & _ & _ & _ & _ & _ & _ & Hfr).
    unfold state_is. now rewrite Hst, Hfr.
  - intros Hs. expose s. subst. reflexivity.
  - intros Hs. unfold state_is.
    destruct (state s) as [[ | | ]| ]; cbn [playState_eqb]; congruence.
Qed.

(** X8: the clock asks for the next frame exactly when it is Playing at the
    end of a tick, and then for one frame; [play()] does the same through
    the tick that 'play' runs.  A tick that pauses or finishes asks for
    none. *)
Theorem rearms_iff_playing (time start end_ : value) (this : External) :
  frames (onAudioProcess time this) =
    (if state_is (onAudioProcess time this) PLAYING then S (frames this)
     else frames this) /\
  frames (play start end_ this) =
    (if state_is (play start end_ this) PLAYING then S (frames this)
     else frames this).
Proof.
  split; [ apply onAudioProcess_frames | ].
  unfold play, fireEvent_play. rewrite onAudioProcess_frames.
  assert (Hf : frames (seekTo start this) = frames this).
  { expose this. unfold seekTo, setState, state_is.
    destruct this_state as [[ | | ]| ]; reflexivity. }
  rewrite <- Hf. generalize (seekTo start this). intros s.
  destruct (setState_frame PLAYING (set_scheduledPause s end_))
    as (_ & _ & _ & _ & _ & _ & Hfs).
  assert (Hf' : frames (set_scheduledPause s end_) = frames s)
    by (expose s; reflexivity).
  rewrite <- Hf', <- Hfs.
  generalize (setState PLAYING (set_scheduledPause s end_)). intros s'.
  expose s'. reflexivity.
Qed.

(** *** The state and the scheduled pause *)

Lemma onAudioProcess_outcome (time : value) (this : External) :
  (state (onAudioProcess time this) = Some FINISHED \/
   state (onAudioProcess time this) = Some PAUSED) /\
  scheduledPause (onAudioProcess time this) = VNull \/
  state (onAudioProcess time this) = state this /\
  scheduledPause (onAudioProcess time this) = scheduledPause this.
Proof.
  destruct (stamp_frame time this) as (Hs & _ & _ & _ & _ & Hp & _).
  unfold onAudioProcess. rewrite <- Hs, <- Hp.
  generalize (stamp time this). intros s.
  destruct (pause_frame s) as (_ & Hst & Hsp & _).
  destruct (setState_frame FINISHED (pause s)) as (_ & _ & _ & _ & _ & Hfs & _).
  branches.
  - left. rewrite state_setState, Hfs, Hsp. auto.
  - left. rewrite Hst, Hsp. auto.
  - right. expose s. split; reflexivity.
  - right. split; reflexivity.
Qed.

Lemma step_state_set (c : call) (this : External) :
  (exists st, state this = Some st) ->
  exists st, state (step c this) = Some st.
Proof.
  intros (st & Hst). destruct c; cbn [step].
  - unfold load. rewrite state_setState. eauto.
  - expose this. unfold setPeaks. assign. eauto.
  - unfold play, fireEvent_play.
    destruct (onAudioProcess_outcome VUndefined
                (emit (set_clockTime (set_lastPlay
                   (setState PLAYING
                      (set_scheduledPause (seekTo start this) end_))
                   VNull) VNull) Play)) as [[[H | H] _] | [H _]];
      rewrite H; eauto.
    generalize (state_setState PLAYING
                  (set_scheduledPause (seekTo start this) end_)).
    generalize (setState PLAYING
                  (set_scheduledPause (seekTo start this) end_)).
    intros s Hs. expose s. eauto.
  - destruct (pause_frame this) as (_ & H & _). rewrite H. eauto.
  - expose this. unfold seekTo, setState, state_is. subst.
    destruct st; assign; eauto.
  - unfold setPlaybackRate. destruct (isPaused this).
    + expose this. assign. eauto.
    + unfold play, fireEvent_play.
      match goal with
      | |- context [onAudioProcess VUndefined ?x] =>
          destruct (onAudioProcess_outcome VUndefined x)
            as [[[H | H] _] | [H _]]; rewrite H; eauto
      end.
      match goal with
      | |- context [setState PLAYING ?x] =>
          generalize (state_setState PLAYING x);
          generalize (setState PLAYING x)
      end.
      intros s Hs. expose s. eauto.
  - expose this. unfold setVolume. assign. eauto.
  - destruct (onAudioProcess_outcome time this) as [[[H | H] _] | [H _]];
      rewrite H; eauto.
Qed.

(** X9: once [load()] has run the state is never [null] again, whatever is
    called and whatever the ticks carry. *)
Theorem state_stays_set
    (cs : list call) (p : option (list num)) (duration : value)
    (this : External) :
  exists st, state (run cs (load p duration this)) = Some st.
Proof.
  assert (Hrun : forall cs s,
            (exists st, state s = Some st) ->
            exists st, state (run cs s) = Some st).
  { clear. induction cs as [ | c cs IH]; intros s Hs; cbn [run]; trivial.
    apply IH. now apply step_state_set. }
  apply Hrun. unfold load. rewrite state_setState. eauto.
Qed.

Lemma tick_unscheduled (time : value) (this : External) :
  unscheduled_when_idle this ->
  unscheduled_when_idle (onAudioProcess time this).
Proof.
  unfold unscheduled_when_idle. intros Hi.
  destruct (onAudioProcess_outcome time this) as [[_ H] | [Hs Hp]].
  - now right.
  - rewrite Hs, Hp. exact Hi.
Qed.

Lemma play_unscheduled (start end_ : value) (this : External) :
  unscheduled_when_idle (play start end_ this).
Proof.
  unfold play, fireEvent_play. apply tick_unscheduled. left.
  generalize (state_setState PLAYING
                (set_scheduledPause (seekTo start this) end_)).
  generalize (setState PLAYING (set_scheduledPause (seekTo start this) end_)).
  intros s Hs. expose s. exact Hs.
Qed.

Lemma step_unscheduled (c : call) (this : External) :
  unscheduled_when_idle this -> unscheduled_when_idle (step c this).
Proof.
  intros Hi. destruct c; cbn [step].
  - right. unfold load.
    destruct (setState_frame PAUSED
                (set_scheduledPause
                   (setPeaks p duration (set_startPosition this (lit 0)))
                   VNull)) as (_ & _ & _ & _ & _ & H & _).
    rewrite H.
    generalize (setPeaks p duration (set_startPosition this (lit 0))).
    intros s. expose s. reflexivity.
  - unfold unscheduled_when_idle in *. expose this. exact Hi.
  - apply play_unscheduled.
  - right. apply pause_frame.
  - unfold unscheduled_when_idle in *. expose this.
    unfold seekTo, setState, state_is.
    destruct Hi as [-> | ->]; [ left; reflexivity | right ].
    destruct this_state as [[ | | ]| ]; reflexivity.
  - unfold setPlaybackRate. destruct (isPaused this).
    + unfold unscheduled_when_idle in *. expose this. exact Hi.
    + apply play_unscheduled.
  - unfold unscheduled_when_idle in *. expose this. exact Hi.
  - now apply tick_unscheduled.
Qed.

(** X10: a scheduled pause does not outlive the playing session it was set
    for: from a backend that is idle with no pause scheduled (as the
    constructor builds it), whatever is called, the backend is Playing or
    its scheduled pause is [null]. *)
Theorem scheduledPause_cleared_when_idle
    (cs : list call) (this : External) :
  unscheduled_when_idle this ->
  unscheduled_when_idle (run cs this).
Proof.
  revert this. induction cs as [ | c cs IH]; intros this Hi; cbn [run];
    trivial.
  apply IH. now apply step_unscheduled.
Qed.

(** *** Pausing, resuming and seeking *)

(** X11: [pause()] on a playing backend freezes the clock where it is: the
    current time is the same before and after, the backend is Paused with no
    pause scheduled, and the last event is the 'audioprocess' that carries
    that time. *)
Theorem pause_keeps_position (this : External) :
  state this = Some PLAYING ->
  getCurrentTime (pause this) = getCurrentTime this /\
  startPosition (pause this) = getCurrentTime this /\
  isPaused (pause this) = true /\
  scheduledPause (pause this) = VNull /\
  events (pause this) =
    events this ++ [Pause; Audioprocess (getCurrentTime this)] /\
  frames (pause this) = frames this.
Proof.
  intros Hst. rewrite (pause_playing this Hst).
  repeat split; reflexivity.
Qed.

(** X12: [pause()] then [play()] resumes where the clock was: a playing
    backend whose current time is a number below the duration is Playing
    again at the same current time, with both anchors unset, so that the
    time spent paused is not counted. *)
Theorem pause_then_play_resumes (this : External) (q r : Qc) :
  state this = Some PLAYING ->
  getCurrentTime this = VNum (Fin q) ->
  playbackRate this = VNum (Fin r) ->
  js_ge (getCurrentTime this) (getDuration this) = false ->
  state (play VUndefined VUndefined (pause this)) = Some PLAYING /\
  getCurrentTime (play VUndefined VUndefined (pause this)) = VNum (Fin q) /\
  lastPlay (play VUndefined VUndefined (pause this)) = VNull /\
  clockTime (play VUndefined VUndefined (pause this)) = VNull.
Proof.
  intros Hst Hq Hr Hge. rewrite Hq in Hge. unfold getDuration in Hge.
  rewrite (pause_playing this Hst), Hq.
  rewrite (play_resumes q r) by (trivial; reflexivity).
  split; [ reflexivity | ].
  split; [ | split; reflexivity ].
  now apply nothing_elapsed_before_first_tick with (r := r).
Qed.

Lemma seekTo_finished (this : External) (d : Qc) :
  state this = Some FINISHED ->
  explicitDuration this = VNum (Fin d) ->
  seekTo VUndefined this =
    set_state (set_startPosition this (lit 0)) (Some PAUSED).
Proof.
  intros Hst Hd. expose this. subst.
  unfold seekTo, getCurrentTime, getDuration. assign.
  assert (Hge : js_ge (VNum (Fin d)) (VNum (Fin d)) = true)
    by (unfold js_ge; cbn [to_number num_ge]; apply Qc_leb_le, Qcle_refl).
  rewrite Hge. reflexivity.
Qed.

(** X13: [play()] on a finished clip of positive duration starts over: the
    position wraps to 0, the backend is Playing at current time 0 with both
    anchors unset, 'play' and one 'audioprocess' are fired and one frame is
    requested. *)
Theorem play_restarts_finished (this : External) (d r : Qc) :
  state this = Some FINISHED ->
  explicitDuration this = VNum (Fin d) ->
  0 < d ->
  playbackRate this = VNum (Fin r) ->
  state (play VUndefined VUndefined this) = Some PLAYING /\
  startPosition (play VUndefined VUndefined this) = lit 0 /\
  getCurrentTime (play VUndefined VUndefined this) = lit 0 /\
  lastPlay (play VUndefined VUndefined this) = VNull /\
  clockTime (play VUndefined VUndefined this) = VNull /\
  events (play VUndefined VUndefined this) =
    events this ++ [Play; Audioprocess (lit 0)] /\
  frames (play VUndefined VUndefined this) = S (frames this).
Proof.
  intros Hst Hd Hd0 Hr.
  assert (Hlt : js_ge (lit 0) (VNum (Fin d)) = false)
    by (unfold js_ge, lit; cbn [to_number num_ge]; now apply Qc_leb_gt).
  set (x := set_state (set_startPosition this (lit 0)) (Some PAUSED)).
  assert (Hx : seekTo VUndefined x = x).
  { unfold x. expose this. subst.
    unfold seekTo, getCurrentTime, getDuration, state_is. assign.
    now rewrite Hlt. }
  assert (Hplay : play VUndefined VUndefined this
                  = play VUndefined VUndefined x).
  { unfold play. now rewrite (seekTo_finished this d Hst Hd), Hx. }
  rewrite Hplay.
  rewrite (play_resumes 0 r x);
    [ | unfold x; expose this; subst; trivial .. ].
  - unfold x. expose this.
    split; [ reflexivity | ]. split; [ reflexivity | ].
    split; [ | repeat split; reflexivity ].
    now apply nothing_elapsed_before_first_tick with (r := r).
Qed.

(** X14: a change of rate while playing forgets the scheduled pause: the
    pause inside [setPlaybackRate] clears it and the play that follows
    passes no end, so that afterwards no pause is scheduled, whatever was
    scheduled before. *)
Theorem setPlaybackRate_forgets_scheduledPause (v : value) (this : External) :
  state this = Some PLAYING ->
  is_nullish (scheduledPause (setPlaybackRate v this)) = true /\
  truthy (scheduledPause (setPlaybackRate v this)) = false.
Proof.
  intros Hst.
  assert (Hp : isPaused this = false)
    by (unfold isPaused, state_is; now rewrite Hst).
  unfold setPlaybackRate. rewrite Hp. unfold play, fireEvent_play.
  match goal with
  | |- context [onAudioProcess VUndefined ?x] =>
      assert (Hx : scheduledPause x = VUndefined);
      [ | destruct (onAudioProcess_outcome VUndefined x) as [[_ H] | [_ H]];
          rewrite H, ?Hx; split; reflexivity ]
  end.
  match goal with
  | |- context [setState PLAYING ?y] =>
      destruct (setState_frame PLAYING y) as (_ & _ & _ & _ & _ & Hs & _);
      assert (Hy : scheduledPause y = VUndefined);
      [ | revert Hs Hy; generalize (setState PLAYING y); intros s Hs Hy;
          expose s; assign; congruence ]
  end.
  match goal with
  | |- context [set_scheduledPause ?z VUndefined] => destruct z
  end.
  reflexivity.
Qed.

(** *** Ticks and the current time *)

(** The time stamp of a first tick: both anchors take it, so nothing has
    been played. *)
Lemma stamp_first_tick (ms p r : Qc) (this : External) :
  lastPlay this = VNull ->
  startPosition this = VNum (Fin p) ->
  playbackRate this = VNum (Fin r) ->
  lastPlay (stamp (VNum (Fin ms)) this) = VNum (Fin (ms / Q2Qc 1000)) /\
  clockTime (stamp (VNum (Fin ms)) this) = VNum (Fin (ms / Q2Qc 1000)) /\
  js_add (startPosition (stamp (VNum (Fin ms)) this))
    (getPlayedTime (stamp (VNum (Fin ms)) this)) = VNum (Fin p).
Proof.
  intros Hl Hp Hr. expose this. subst.
  unfold stamp. assign. rewrite js_div_1000. assign.
  split; [ reflexivity | ]. split; [ reflexivity | ].
  unfold getPlayedTime, js_add, js_mul, js_sub. assign.
  cbn [to_number num_sub num_add num_mul num_opp]. do 2 f_equal. ring.
Qed.

(** X15: the first tick after [play()] adds nothing, whatever its time
    stamp: on a playing backend whose anchor is unset, the whole tick
    leaves [startPosition] as it was and both anchors at the time stamp in
    seconds, and [getCurrentTime()] is [startPosition], unless the tick
    finished the clip (then it is the duration).  The origin of the Clock
    Source does not show. *)
Theorem first_tick_anchors (ms p r : Qc) (this : External) :
  state this = Some PLAYING ->
  lastPlay this = VNull ->
  startPosition this = VNum (Fin p) ->
  playbackRate this = VNum (Fin r) ->
  startPosition (onAudioProcess (VNum (Fin ms)) this) = VNum (Fin p) /\
  lastPlay (onAudioProcess (VNum (Fin ms)) this) =
    VNum (Fin (ms / Q2Qc 1000)) /\
  clockTime (onAudioProcess (VNum (Fin ms)) this) =
    VNum (Fin (ms / Q2Qc 1000)) /\
  (state (onAudioProcess (VNum (Fin ms)) this) = Some FINISHED \/
   getCurrentTime (onAudioProcess (VNum (Fin ms)) this) = VNum (Fin p)).
Proof.
  intros Hst Hl Hp Hr.
  destruct (stamp_first_tick ms p r this Hl Hp Hr) as (Ha & Hc & Hsum).
  destruct (stamp_frame (VNum (Fin ms)) this) as (Hs & _ & _ & Hq & _).
  rewrite Hst in Hs. rewrite Hp in Hq.
  destruct (onAudioProcess_cases (VNum (Fin ms)) this)
    as [H | [H | [[_ H] | [Hn _]]]]; [ | | | congruence ];
    rewrite H; clear H;
    revert Ha Hc Hsum Hs Hq; generalize (stamp (VNum (Fin ms)) this);
    intros s Ha Hc Hsum Hs Hq.
  - destruct (setState_frame FINISHED (pause s)) as (Kp & _ & _ & Kl & Kc & _).
    destruct (pause_frame s) as (Pp & _ & _ & _ & _ & _ & Pl & Pc & _).
    rewrite Kp, Kl, Kc, Pp, Pl, Pc, state_setState. auto.
  - destruct (pause_frame s) as (Pp & Pst & _ & _ & _ & _ & Pl & Pc & _).
    rewrite Pp, Pl, Pc. repeat split; trivial.
    right. unfold getCurrentTime. now rewrite Pst, Pp.
  - expose s. subst. assign. repeat split; trivial.
    right. exact Hsum.
Qed.

(** A tick that leaves the backend Playing leaves the time it computed. *)
Lemma tick_playing_time (time : value) (this : External) :
  state (onAudioProcess time this) = Some PLAYING ->
  getCurrentTime (onAudioProcess time this) =
    getCurrentTime (stamp time this).
Proof.
  destruct (onAudioProcess_cases time this) as [H | [H | [[Hs H] | [Hs H]]]];
    rewrite H; clear H.
  - rewrite state_setState. discriminate.
  - destruct (pause_frame (stamp time this)) as (_ & Hp & _).
    rewrite Hp. discriminate.
  - intros _. destruct (stamp time this). reflexivity.
  - reflexivity.
Qed.

(** X16: under a well-behaved host the clock does not run backwards: a tick
    that is not older than the last one, on a playing backend, leaves a
    current time that is at least the one before, as long as the backend is
    still Playing. *)
Theorem tick_never_moves_back (ms : Qc) (this : External) :
  sound this ->
  state this = Some PLAYING ->
  admissible (Ctick (VNum (Fin ms))) this ->
  state (onAudioProcess (VNum (Fin ms)) this) = Some PLAYING ->
  exists q q',
    getCurrentTime this = VNum (Fin q) /\
    getCurrentTime (onAudioProcess (VNum (Fin ms)) this) = VNum (Fin q') /\
    q <= q'.
Proof.
  intros [(p & Hp & _) (r & Hr & Hr0) _ Ha _] Hst Hadm Hend.
  rewrite (tick_playing_time _ _ Hend). clear Hend.
  expose this. subst. cbn [admissible clockTime] in Hadm.
  unfold stamp. assign. rewrite js_div_1000. assign.
  unfold getCurrentTime, getPlayedTime, js_add, js_mul, js_sub.
  destruct Ha as [[-> ->] | (l & c & -> & -> & Hlc)]; assign;
    cbn [to_number num_sub num_add num_mul num_opp];
    do 2 eexists; (split; [ reflexivity | split; [ reflexivity | ] ]).
  - replace ((ms / Q2Qc 1000 + - (ms / Q2Qc 1000)) * r)
      with ((0 + - 0) * r) by ring.
    apply Qcle_refl.
  - apply Qcplus_le_compat; [ apply Qcle_refl | ].
    apply Qcmult_le_compat_r; [ | now apply Qclt_le_weak ].
    apply Qcplus_le_compat; [ exact Hadm | apply Qcle_refl ].
Qed.

(** X17: [seekTo(s)] on a playing backend moves the start position and
    leaves the anchors: the current time lands on [s] plus what has been
    played since the anchor, not on [s]. *)
Theorem seekTo_while_playing (s c l r : Qc) (this : External) :
  state this = Some PLAYING ->
  clockTime this = VNum (Fin c) ->
  lastPlay this = VNum (Fin l) ->
  playbackRate this = VNum (Fin r) ->
  state (seekTo (VNum (Fin s)) this) = Some PLAYING /\
  getPlayedTime (seekTo (VNum (Fin s)) this) = getPlayedTime this /\
  getCurrentTime (seekTo (VNum (Fin s)) this) =
    VNum (Fin (s + (c - l) * r)).
Proof.
  intros Hst Hc Hl Hr. expose this. subst.
  unfold seekTo, setState, state_is, getCurrentTime, getPlayedTime.
  assign. repeat split; reflexivity.
Qed.

(** A backend that is Playing when a tick returns has reached neither the
    duration nor a scheduled pause: the time it shows is below both. *)
Lemma tick_playing_below (time : value) (this : External) :
  state (onAudioProcess time this) = Some PLAYING ->
  js_ge (getCurrentTime (onAudioProcess time this))
    (getDuration (onAudioProcess time this)) = false /\
  truthy (scheduledPause (onAudioProcess time this))
    && js_ge (getCurrentTime (onAudioProcess time this))
         (scheduledPause (onAudioProcess time this)) = false.
Proof.
  intros Hend. rewrite (tick_playing_time time this Hend).
  revert Hend. unfold onAudioProcess.
  generalize (stamp time this). intros s.
  destruct (pause_frame s) as (_ & Hp & _).
  destruct (js_ge (getCurrentTime s) (getDuration s)) eqn:Hge;
    [ rewrite state_setState; discriminate | ].
  destruct (truthy (scheduledPause s)
            && js_ge (getCurrentTime s) (scheduledPause s)) eqn:Hsp;
    [ rewrite Hp; discriminate | ].
  destruct (state_is s PLAYING); intros _.
  - unfold getDuration in *. destruct s. split; assumption.
  - split; assumption.
Qed.

(** X18: whenever a tick or [play()] returns with the backend Playing, the
    current time has reached neither the duration nor a scheduled pause. *)
Theorem playing_below_duration (time start end_ : value) (this : External) :
  (state (onAudioProcess time this) = Some PLAYING ->
   js_ge (getCurrentTime (onAudioProcess time this))
     (getDuration (onAudioProcess time this)) = false /\
   truthy (scheduledPause (onAudioProcess time this))
     && js_ge (getCurrentTime (onAudioProcess time this))
          (scheduledPause (onAudioProcess time this)) = false) /\
  (state (play start end_ this) = Some PLAYING ->
   js_ge (getCurrentTime (play start end_ this))
     (getDuration (play start end_ this)) = false /\
   truthy (scheduledPause (play start end_ this))
     && js_ge (getCurrentTime (play start end_ this))
          (scheduledPause (play start end_ this)) = false).
Proof.
  split; [ apply tick_playing_below | ].
  unfold play, fireEvent_play. apply tick_playing_below.
Qed.

(** X19: [play(s, e)] with a number [s] leaves [startPosition] at [s] in
    every state and for every end, when the rate is finite: also when the
    tick that 'play' runs pauses or finishes at once, since nothing has been
    played yet. *)
Theorem play_starts_at (s r : Qc) (end_ : value) (this : External) :
  playbackRate this = VNum (Fin r) ->
  startPosition (play (VNum (Fin s)) end_ this) = VNum (Fin s) /\
  lastPlay (play (VNum (Fin s)) end_ this) = VNull /\
  clockTime (play (VNum (Fin s)) end_ this) = VNull.
Proof.
  intros Hr.
  split; [ | apply play_unsets_anchors ].
  unfold play, fireEvent_play.
  set (x := emit _ Play).
  assert (Hx : startPosition x = VNum (Fin s) /\
               playbackRate x = VNum (Fin r) /\
               lastPlay x = VNull /\ clockTime x = VNull).
  { unfold x.
    destruct (seekTo_frame (VNum (Fin s)) this) as (Hp & _).
    destruct (seekTo_settings (VNum (Fin s)) this) as (Hr' & _).
    cbn [is_nullish] in Hp. rewrite <- Hr' in Hr. revert Hp Hr.
    generalize (seekTo (VNum (Fin s)) this). intros y Hp Hr.
    destruct (setState_frame PLAYING (set_scheduledPause y end_))
      as (Hp' & Hr'' & _).
    assert (Hy : startPosition (set_scheduledPause y end_) = VNum (Fin s) /\
                 playbackRate (set_scheduledPause y end_) = VNum (Fin r))
      by (expose y; auto).
    destruct Hy as [Hy1 Hy2]. rewrite Hy1 in Hp'. rewrite Hy2 in Hr''.
    revert Hp' Hr''.
    generalize (setState PLAYING (set_scheduledPause y end_)).
    intros z Hz1 Hz2. expose z. auto. }
  destruct Hx as (Hp & Hrx & Hl & Hc).
  assert (Hplayed : getPlayedTime x = lit 0)
    by now apply getPlayedTime_unanchored with (r := r).
  assert (Hsum : js_add (startPosition x) (getPlayedTime x) = VNum (Fin s)).
  { rewrite Hp, Hplayed. unfold js_add, lit. cbn [to_number].
    now rewrite num_add_0_r. }
  destruct (onAudioProcess_cases VUndefined x) as [H | [H | [[_ H] | [_ H]]]];
    rewrite H, ?stamp_undefined; clear H.
  - destruct (setState_frame FINISHED (pause x)) as (Hs & _).
    rewrite Hs. destruct (pause_frame x) as (Hq & _). now rewrite Hq.
  - destruct (pause_frame x) as (Hq & _). now rewrite Hq.
  - revert Hp. generalize x. intros y Hp. expose y. exact Hp.
  - exact Hp.
Qed.

(** *** Before a clip is loaded *)

(** X20: on a backend that has been constructed and initialised but not
    loaded, whatever the rate of the parameters: the state is [null], so
    [getCurrentTime()] is [undefined], [isPaused()] is true,
    [getPlayedPercents()] is 0, [getDuration()] is [null], [getPeaks()] is
    empty, the rate is [audioRate || 1] and nothing has been fired. *)
Theorem before_load (audioRate : value) :
  state (init audioRate constructor) = None /\
  getCurrentTime (init audioRate constructor) = VUndefined /\
  isPaused (init audioRate constructor) = true /\
  getPlayedPercents (init audioRate constructor) = lit 0 /\
  getDuration (init audioRate constructor) = VNull /\
  getPeaks (init audioRate constructor) = [] /\
  getPlaybackRate (init audioRate constructor) = js_or audioRate (lit 1) /\
  events (init audioRate constructor) = [].
Proof.
  unfold init, setPlaybackRate, isPaused, state_is, constructor. assign.
  repeat split; reflexivity.
Qed.

(** *** Instances *)

Lemma seekTo_when_stopped_witness :
  state overshoot = Some FINISHED /\
  state (seekTo (lit 3) overshoot) = Some PAUSED /\
  getCurrentTime (seekTo (lit 3) overshoot) = lit 3.
Proof.
  assert (Hst : state overshoot = Some FINISHED) by run_model.
  destruct (seekTo_when_stopped (Fin (Q2Qc 3)) overshoot (or_intror Hst))
    as (Hs & Hc & _).
  split; [ exact Hst | ]. split; [ exact Hs | exact Hc ].
Defined.

Lemma transport_past_the_end : Forall transport past_the_end.
Proof.
  unfold past_the_end. repeat (constructor; [ exact I | ]). constructor.
Qed.

Lemma transport_keeps_clip_witness :
  getDuration (run past_the_end ten_seconds) = getDuration ten_seconds /\
  getPeaks (run past_the_end ten_seconds) = getPeaks ten_seconds.
Proof.
  destruct (transport_keeps_clip past_the_end ten_seconds
              transport_past_the_end) as (Hp & Hd & _).
  split; [ exact Hd | exact Hp ].
Defined.

Lemma pauses_are_reported_witness :
  reported (events (run past_the_end ten_seconds)).
Proof.
  apply (pauses_are_reported past_the_end ten_seconds).
  replace (events ten_seconds) with (@nil event) by (vm_compute; reflexivity).
  constructor.
Defined.

Lemma scheduledPause_cleared_when_idle_witness :
  unscheduled_when_idle (run past_the_end ten_seconds).
Proof.
  apply (scheduledPause_cleared_when_idle past_the_end ten_seconds).
  right. run_model.
Defined.

Lemma pause_keeps_position_witness :
  state two_seconds_in = Some PLAYING /\
  getCurrentTime (pause two_seconds_in) = getCurrentTime two_seconds_in.
Proof.
  assert (Hst : state two_seconds_in = Some PLAYING) by run_model.
  split; [ exact Hst | ].
  apply (pause_keeps_position two_seconds_in Hst).
Defined.

Lemma pause_then_play_resumes_witness :
  state two_seconds_in = Some PLAYING /\
  getCurrentTime two_seconds_in = lit 2 /\
  getCurrentTime (play VUndefined VUndefined (pause two_seconds_in)) = lit 2.
Proof.
  assert (Hst : state two_seconds_in = Some PLAYING) by run_model.
  assert (Hq : getCurrentTime two_seconds_in = VNum (Fin (Q2Qc 2)))
    by run_model.
  assert (Hr : playbackRate two_seconds_in = VNum (Fin (Q2Qc 1)))
    by run_model.
  assert (Hge : js_ge (getCurrentTime two_seconds_in)
                  (getDuration two_seconds_in) = false) by run_model.
  destruct (pause_then_play_resumes two_seconds_in _ _ Hst Hq Hr Hge)
    as (_ & Hc & _).
  split; [ exact Hst | ]. split; [ exact Hq | exact Hc ].
Defined.

Lemma play_restarts_finished_witness :
  state overshoot = Some FINISHED /\
  state (play VUndefined VUndefined overshoot) = Some PLAYING /\
  getCurrentTime (play VUndefined VUndefined overshoot) = lit 0.
Proof.
  assert (Hst : state overshoot = Some FINISHED) by run_model.
  assert (Hd : explicitDuration overshoot = VNum (Fin (Q2Qc 10)))
    by run_model.
  assert (Hd0 : 0 < Q2Qc 10) by (vm_compute; reflexivity).
  assert (Hr : playbackRate overshoot = VNum (Fin (Q2Qc 1))) by run_model.
  destruct (play_restarts_finished overshoot _ _ Hst Hd Hd0 Hr)
    as (Hs & _ & Hc & _).
  split; [ exact Hst | ]. split; [ exact Hs | exact Hc ].
Defined.

Lemma setPlaybackRate_forgets_scheduledPause_witness :
  state pause_at_five = Some PLAYING /\
  scheduledPause pause_at_five = lit 5 /\
  truthy (scheduledPause rate_change_at_five) = false.
Proof.
  assert (Hst : state pause_at_five = Some PLAYING) by run_model.
  split; [ exact Hst | ]. split; [ run_model | ].
  apply (setPlaybackRate_forgets_scheduledPause (lit 2) pause_at_five Hst).
Defined.

Lemma first_tick_anchors_witness :
  state just_started = Some PLAYING /\
  startPosition (onAudioProcess (VNum (Fin (Q2Qc 123456))) just_started) =
    VNum (Fin (Q2Qc 0)).
Proof.
  assert (Hst : state just_started = Some PLAYING) by run_model.
  assert (Hp : startPosition just_started = VNum (Fin (Q2Qc 0)))
    by run_model.
  assert (Hr : playbackRate just_started = VNum (Fin (Q2Qc 1)))
    by run_model.
  split; [ exact Hst | ].
  apply (first_tick_anchors (Q2Qc 123456) _ _ just_started Hst
           (proj1 (play_unsets_anchors _ _ _)) Hp Hr).
Defined.

Lemma sound_two_seconds_in : sound two_seconds_in.
Proof.
  unfold two_seconds_in, ten_seconds.
  apply sound_run.
  - apply sound_loaded; [ exact I | ].
    apply Qc_leb_le. vm_compute. reflexivity.
  - cbn [admissible_run admissible].
    split; [ exact I | ].
    split; [ vm_compute; exact I | ].
    split; [ vm_compute; discriminate | exact I ].
Qed.

Lemma tick_never_moves_back_witness :
  state two_seconds_in = Some PLAYING /\
  exists q q',
    getCurrentTime two_seconds_in = VNum (Fin q) /\
    getCurrentTime (onAudioProcess (VNum (Fin (Q2Qc 3000))) two_seconds_in) =
      VNum (Fin q') /\
    q <= q'.
Proof.
  assert (Hst : state two_seconds_in = Some PLAYING) by run_model.
  split; [ exact Hst | ].
  apply (tick_never_moves_back (Q2Qc 3000) two_seconds_in
           sound_two_seconds_in Hst).
  - vm_compute. discriminate.
  - run_model.
Defined.

Lemma seekTo_while_playing_witness :
  state two_seconds_in = Some PLAYING /\
  getCurrentTime (seekTo (lit 5) two_seconds_in) = lit 7.
Proof.
  assert (Hst : state two_seconds_in = Some PLAYING) by run_model.
  assert (Hc : clockTime two_seconds_in = VNum (Fin (Q2Qc 2))) by run_model.
  assert (Hl : lastPlay two_seconds_in = VNum (Fin (Q2Qc 0))) by run_model.
  assert (Hr : playbackRate two_seconds_in = VNum (Fin (Q2Qc 1)))
    by run_model.
  destruct (seekTo_while_playing (Q2Qc 5) _ _ _ two_seconds_in Hst Hc Hl Hr)
    as (_ & _ & Hcur).
  split; [ exact Hst | ].
  change (lit 5) with (VNum (Fin (Q2Qc 5))). rewrite Hcur. run_model.
Defined.

Lemma play_starts_at_witness :
  startPosition (play (VNum (Fin (Q2Qc 20))) VUndefined ten_seconds) =
    VNum (Fin (Q2Qc 20)).
Proof.
  apply (play_starts_at (Q2Qc 20) (Q2Qc 1) VUndefined ten_seconds).
  run_model.
Defined.

End Further.
